(** * temperaturealert: the serial temperature logger of [main.py]

    A shallow embedding of [src/main.py] and the properties of its packet
    decoder, its quarter-hour scheduler and its logging pipeline.

    - Python [float] is IEEE 754 binary64 with round-to-nearest-even; it is
      modelled by Rocq's primitive [float], which is the same format with the
      same rounding, so [/], [*], [+] and [-] below round exactly where the
      interpreter rounds.
    - Python [int] is [Z]; [bytes] is [list byte]; [str] is [string] (the
      degree sign is kept as its two UTF-8 bytes).
    - Calls into the outside world (serial port, clock, file system, HTTP)
      are operations of a small state-and-exception monad; what the outside
      world answers is an explicit argument.
    - The standard output is modelled twice: first as one that accepts
      every write, then, in the module [Stdout], as one whose every [print]
      can raise; [run_accepted] relates the two. *)

From Stdlib Require Import ZArith List String Ascii Bool Lia.
From Stdlib Require Import Strings.Byte Floats Uint63 QArith Qabs.
Import ListNotations.

Local Open Scope string_scope.
Local Open Scope Z_scope.

(** ** Python values *)

(** [float(n)] for an [int] [n]; exact for [|n| <= 2^53], which covers every
    integer this program converts. *)
Definition float_of_int (n : Z) : float :=
  if n <? 0 then PrimFloat.opp (PrimFloat.of_uint63 (Uint63.of_Z (- n)))
  else PrimFloat.of_uint63 (Uint63.of_Z n).

(** The exceptions the program can meet.  [KeyboardInterrupt] and
    [SystemExit] derive from [BaseException] only; the others derive from
    [Exception]. *)
Inductive exn : Type :=
| SerialException (msg : string)
| struct_error (msg : string)
| TypeError (msg : string)
| OSError (msg : string)
| RequestException (msg : string)
| KeyboardInterrupt
| SystemExit (code : Z).

Definition is_Exception (e : exn) : bool :=
  match e with
  | KeyboardInterrupt | SystemExit _ => false
  | _ => true
  end.

Definition is_SerialException (e : exn) : bool :=
  match e with
  | SerialException _ => true
  | _ => false
  end.

Definition is_KeyboardInterrupt (e : exn) : bool :=
  match e with
  | KeyboardInterrupt => true
  | _ => false
  end.

(** [str(e)] *)
Definition exn_message (e : exn) : string :=
  match e with
  | SerialException m | struct_error m | TypeError m | OSError m
  | RequestException m => m
  | KeyboardInterrupt => EmptyString
  | SystemExit c => EmptyString
  end.

(** The outcome of running a piece of the program: it returns a value, it
    raises, or the observed behaviour of the outside world ends while the
    program is still running ([Blocked]; only the endless sampling loop
    produces it). *)
Inductive Result (A : Type) : Type :=
| Return (a : A)
| Raise (e : exn)
| Blocked.
Arguments Return {A} a.
Arguments Raise {A} e.
Arguments Blocked {A}.

(** ** Module constants (lines 9-23) *)

Definition PORT (sys_platform : string) : string :=
  if prefix "win" sys_platform then "COM3"%string
  else if String.eqb sys_platform "darwin" then "/dev/tty.usbserial-0001"%string
  else "/dev/ttyUSB0"%string.

Definition BAUD : Z := 9600.

Definition APPS_SCRIPT_URL : string :=
  "https://script.google.com/macros/s/AKfycbz-fTETpM-3AmclY_cJ2O3hC5OJE1q8XowPNXluFz-c184h4gK5OC03TeZcZodqNKfjkA/exec".

Definition PACKET_LEN : nat := 18.
Definition TEMP1_OFFSET : nat := 9.

(** ** The packet decoder (lines 31-35 of [read_temperature_f]) *)

Definition byte_value (b : byte) : Z := Z.of_N (Byte.to_N b).

(** [struct.unpack_from('<h', data, offset)[0]]: two bytes, least significant
    first, read as a two's-complement 16-bit integer.  [struct] raises
    [struct.error] when fewer than two bytes remain at [offset]. *)
Definition unpack_from_h_le (data : list byte) (offset : nat) : Result Z :=
  match skipn offset data with
  | lo :: hi :: _ =>
      let u := byte_value lo + 256 * byte_value hi in
      Return (if u <? 32768 then u else u - 65536)
  | _ => Raise (struct_error "unpack_from requires a buffer of at least 2 bytes")
  end.

(** [raw / 16.0] then [celsius * 9 / 5 + 32], in binary64. *)
Definition fahrenheit_of_raw (raw : Z) : float :=
  let celsius := (float_of_int raw / 16)%float in
  (celsius * 9 / 5 + 32)%float.

(** The rational number a finite float stands for. *)
Definition float_exact (x : float) : option Q :=
  match Prim2SF x with
  | S754_zero _ => Some 0%Q
  | S754_finite s m e =>
      Some (inject_Z (if s then Z.neg m else Z.pos m) * Qpower 2 e)%Q
  | _ => None
  end.

(** The conversion over the rationals: [(raw/16) * 9/5 + 32]. *)
Definition fahrenheit_exact (raw : Z) : Q :=
  ((raw # 16) * (9 # 5) + 32)%Q.

(** [x] is within [tol] of the rational [q]. *)
Definition within (tol : Q) (x : float) (q : Q) : bool :=
  match float_exact x with
  | Some v => Qle_bool (Qabs (v - q)) tol
  | None => false
  end.

Definition decode_packet (data : list byte) : Result (option float) :=
  if (List.length data <? PACKET_LEN)%nat then Return None
  else
    match unpack_from_h_le data TEMP1_OFFSET with
    | Return raw => Return (Some (fahrenheit_of_raw raw))
    | Raise e => Raise e
    | Blocked => Blocked
    end.

(** ** The clock *)

(** The fields of a [datetime.datetime]. *)
Record datetime : Type := mk_datetime {
  year : Z;
  month : Z;
  day : Z;
  hour : Z;
  minute : Z;
  second : Z;
  microsecond : Z
}.

(** The ranges [datetime] guarantees for the fields the program reads (the
    day is not checked against the length of the month: no code here depends
    on it). *)
Definition datetime_ok (t : datetime) : bool :=
  (1 <=? year t) && (year t <=? 9999) &&
  (1 <=? month t) && (month t <=? 12) &&
  (1 <=? day t) && (day t <=? 31) &&
  (0 <=? hour t) && (hour t <? 24) &&
  (0 <=? minute t) && (minute t <? 60) &&
  (0 <=? second t) && (second t <? 60) &&
  (0 <=? microsecond t) && (microsecond t <? 1000000).

(** ** The scheduler (lines 38-42) *)

(** [(now.minute % 15) * 60 + now.second + now.microsecond / 1e6]: the first
    two terms are [int] arithmetic, the division and the last sum are
    [float] arithmetic. *)
Definition elapsed (now : datetime) : float :=
  (float_of_int ((minute now mod 15) * 60 + second now)
   + float_of_int (microsecond now) / 1e6)%float.

(** [seconds_to_next_quarter()], as a function of the value [datetime.now()]
    returned at line 40. *)
Definition seconds_to_next_quarter (now : datetime) : float :=
  (float_of_int (15 * 60) - elapsed now)%float.

(** ** Text formatting *)

Definition digit (d : Z) : ascii := ascii_of_nat (48 + Z.to_nat d).

Fixpoint decimal_aux (fuel : nat) (n : Z) (acc : string) : string :=
  match fuel with
  | O => acc
  | S fuel' =>
      let acc' := String (digit (n mod 10)) acc in
      if n / 10 =? 0 then acc' else decimal_aux fuel' (n / 10) acc'
  end.

(** [str(n)] for [n >= 0]. *)
Definition decimal (n : Z) : string :=
  decimal_aux (S (Z.to_nat (Z.log2 n))) n "".

Fixpoint zeros (k : nat) : string :=
  match k with
  | O => ""
  | S k' => String "0" (zeros k')
  end.

(** [s.zfill(width)] *)
Definition zfill (width : nat) (s : string) : string :=
  zeros (width - String.length s) ++ s.

(** [t.strftime('%Y%m%d:%H:%M')] *)
Definition strftime (t : datetime) : string :=
  zfill 4 (decimal (year t)) ++ zfill 2 (decimal (month t))
  ++ zfill 2 (decimal (day t)) ++ ":" ++ zfill 2 (decimal (hour t))
  ++ ":" ++ zfill 2 (decimal (minute t)).

(** The integer nearest to [num / 2^k], ties to the even one. *)
Definition round_half_even_shift (num : Z) (k : Z) : Z :=
  let den := 2 ^ k in
  let q := num / den in
  let r := num mod den in
  match (2 * r ?= den) with
  | Lt => q
  | Gt => q + 1
  | Eq => if Z.even q then q else q + 1
  end.

Definition sign_text (negative : bool) : string :=
  if negative then "-" else "".

(** [format(x, '.1f')]: the decimal with one fractional digit nearest to the
    exact value of [x], ties to even. *)
Definition format_1f (x : float) : string :=
  match Prim2SF x with
  | S754_nan => "nan"
  | S754_infinity s => sign_text s ++ "inf"
  | S754_zero s => sign_text s ++ "0.0"
  | S754_finite s m e =>
      let tenths :=
        if 0 <=? e then 10 * Z.pos m * 2 ^ e
        else round_half_even_shift (10 * Z.pos m) (- e) in
      sign_text s ++ decimal (tenths / 10) ++ "." ++ decimal (tenths mod 10)
  end.

(** [f"{temp_f:.1f}"]: [None] does not accept a format specification. *)
Definition format_temp (temp_f : option float) : Result string :=
  match temp_f with
  | Some x => Return (format_1f x)
  | None =>
      Raise (TypeError "unsupported format string passed to NoneType.__format__")
  end.

(** The degree sign, U+00B0, in UTF-8. *)
Definition degree : string :=
  String (ascii_of_nat 194) (String (ascii_of_nat 176) "").

Definition newline : string := String (ascii_of_nat 10) "".

(** ** The outside world *)

(** The machine the script runs on. *)
Record Host : Type := mk_Host {
  sys_platform : string;   (* [sys.platform] *)
  script_dir : string      (* [os.path.dirname(os.path.abspath(__file__))] *)
}.

Definition ends_with (c : ascii) (s : string) : bool :=
  match get (String.length s - 1) s with
  | Some c' => Ascii.eqb c c'
  | None => false
  end.

(** [os.path.join(dir, name)] for a relative [name]. *)
Definition os_path_join (h : Host) (dir name : string) : string :=
  let sep := if prefix "win" (sys_platform h) then "\" else "/" in
  match sep with
  | String c _ => if ends_with c dir then dir ++ name else dir ++ sep ++ name
  | EmptyString => dir ++ name
  end.

Definition LOG_FILE (h : Host) : string :=
  os_path_join h (script_dir h) "temperaturealert.log".

(** What one [print] call wrote.  The countdown line of the main loop,
    [f"Next log at {next_time.strftime('%Y%m%d:%H:%M')} (in {wait:.0f}s)"]
    with [next_time = now + timedelta(seconds=wait)], is kept as the two
    values it is rendered from. *)
Inductive Printed : Type :=
| Line (text : string)
| NextLogAt (now : datetime) (wait : float).

(** One HTTP request handed to [requests.post]. *)
Record Post : Type := mk_Post {
  post_url : string;
  post_data : string;
  post_timeout : Z
}.

(** Everything the program changes. *)
Record World : Type := mk_World {
  console : list Printed;        (* stdout, oldest first *)
  log_file : string;             (* text appended to LOG_FILE so far *)
  open_handles : nat;            (* file objects that are open *)
  posts : list Post;             (* requests handed to requests.post *)
  ser_is_open : bool;            (* the serial connection *)
  ser_sent : list (list byte);   (* commands written to the device *)
  slept : list float             (* durations handed to time.sleep *)
}.

Definition initial_world : World :=
  mk_World [] "" 0 [] false [] [].

(** What the outside world answers to one call. *)
Inductive Reply (A : Type) : Type :=
| Returns (a : A)
| Raises (e : exn).
Arguments Returns {A} a.
Arguments Raises {A} e.

(** What the outside world does during one call of [log_temperature]. *)
Record Tick : Type := mk_Tick {
  on_reset : Reply unit;             (* ser.reset_input_buffer() *)
  on_command : Reply unit;           (* ser.write(b'R\r') *)
  on_settle : Reply unit;            (* time.sleep(1.0) *)
  on_read : Reply (list byte);       (* what the device has sent by ser.read(64) *)
  now_log : datetime;                (* datetime.now() at line 52 *)
  on_open : Reply unit;              (* open(LOG_FILE, 'a') *)
  on_file_write : Reply unit;        (* f.write(line + '\n') *)
  on_post : Reply unit               (* requests.post(...) *)
}.

(** What the outside world does during one turn of the [while True] loop. *)
Record Round : Type := mk_Round {
  now_sched : datetime;              (* datetime.now() at line 40 *)
  now_next : datetime;               (* datetime.now() at line 87 *)
  on_sleep : Reply unit;             (* time.sleep(wait) *)
  tick : Tick
}.

(** What the outside world does during one run of the script; [rounds] is
    the part of the endless loop that is observed. *)
Record Session : Type := mk_Session {
  on_connect : Reply unit;           (* serial.Serial(PORT, BAUD, timeout=2) *)
  first_tick : Tick;
  rounds : list Round
}.

(** ** The monad: state and exceptions *)

Definition M (A : Type) : Type := World -> Result A * World.

Definition ret {A : Type} (a : A) : M A := fun w => (Return a, w).

Definition bind {A B : Type} (m : M A) (k : A -> M B) : M B :=
  fun w =>
    match m w with
    | (Return a, w') => k a w'
    | (Raise e, w') => (Raise e, w')
    | (Blocked, w') => (Blocked, w')
    end.

Definition raise {A : Type} (e : exn) : M A := fun w => (Raise e, w).

Definition blocked {A : Type} : M A := fun w => (Blocked, w).

Definition modify (f : World -> World) : M unit := fun w => (Return tt, f w).

Declare Scope py_scope.
Delimit Scope py_scope with py.
Notation "x <- m ;; k" := (bind m (fun x => k))
  (at level 61, m at next level, right associativity) : py_scope.
Notation "m ;; k" := (bind m (fun _ => k))
  (at level 61, right associativity) : py_scope.
Local Open Scope py_scope.

(** [try: body / except <class> as e: handler e] *)
Definition try_except {A : Type} (body : M A) (catches : exn -> bool)
    (handler : exn -> M A) : M A :=
  fun w =>
    match body w with
    | (Raise e, w') => if catches e then handler e w' else (Raise e, w')
    | other => other
    end.

(** [try: body / finally: final].  An exception of [final] replaces the
    outcome of [body]. *)
Definition try_finally {A : Type} (body : M A) (final : M unit) : M A :=
  fun w =>
    match body w with
    | (Blocked, w') => (Blocked, w')
    | (r, w') =>
        match final w' with
        | (Return _, w'') => (r, w'')
        | (Raise e, w'') => (Raise e, w'')
        | (Blocked, w'') => (Blocked, w'')
        end
    end.

(** A call whose only visible outcome is the reply. *)
Definition call {A : Type} (r : Reply A) : M A :=
  match r with
  | Returns a => ret a
  | Raises e => raise e
  end.

(** [print(...)] on a standard output that accepts every write.  The call
    that can raise is [Stdout.print], with the program over it in the
    module [Stdout]. *)
Definition print (p : Printed) : M unit :=
  modify (fun w => mk_World (console w ++ [p]) (log_file w) (open_handles w)
                     (posts w) (ser_is_open w) (ser_sent w) (slept w)).

(** [time.sleep(d)] *)
Definition sleep (d : float) (r : Reply unit) : M unit :=
  modify (fun w => mk_World (console w) (log_file w) (open_handles w)
                     (posts w) (ser_is_open w) (ser_sent w) (slept w ++ [d])) ;;
  call r.

(** [serial.Serial(port, baud, timeout=2)] *)
Definition serial_Serial (r : Reply unit) : M unit :=
  call r ;;
  modify (fun w => mk_World (console w) (log_file w) (open_handles w)
                     (posts w) true (ser_sent w) (slept w)).

(** [ser.close()] *)
Definition ser_close : M unit :=
  modify (fun w => mk_World (console w) (log_file w) (open_handles w)
                     (posts w) false (ser_sent w) (slept w)).

(** [ser.write(cmd)] *)
Definition ser_write (cmd : list byte) (r : Reply unit) : M unit :=
  call r ;;
  modify (fun w => mk_World (console w) (log_file w) (open_handles w)
                     (posts w) (ser_is_open w) (ser_sent w ++ [cmd]) (slept w)).

(** [ser.read(size)]: at most [size] of the bytes the device has sent. *)
Definition ser_read (size : nat) (r : Reply (list byte)) : M (list byte) :=
  data <- call r ;;
  ret (firstn size data).

(** [f.write(text)] on a file opened for appending. *)
Definition file_write (text : string) (r : Reply unit) : M unit :=
  call r ;;
  modify (fun w => mk_World (console w) (log_file w ++ text) (open_handles w)
                     (posts w) (ser_is_open w) (ser_sent w) (slept w)).

(** [with open(path, 'a') as f: body]: the file object is closed when the
    block is left, whether by its end or by an exception. *)
Definition with_open_append {A : Type} (r : Reply unit) (body : M A) : M A :=
  call r ;;
  modify (fun w => mk_World (console w) (log_file w) (S (open_handles w))
                     (posts w) (ser_is_open w) (ser_sent w) (slept w)) ;;
  try_finally body
    (modify (fun w => mk_World (console w) (log_file w) (Nat.pred (open_handles w))
                        (posts w) (ser_is_open w) (ser_sent w) (slept w))).

(** [requests.post(url, data=data, timeout=timeout)]; the response is
    dropped by the caller. *)
Definition requests_post (url data : string) (timeout : Z) (r : Reply unit)
    : M unit :=
  modify (fun w => mk_World (console w) (log_file w) (open_handles w)
                     (posts w ++ [mk_Post url data timeout]) (ser_is_open w)
                     (ser_sent w) (slept w)) ;;
  call r.

(** Lifts a pure computation that may raise. *)
Definition lift {A : Type} (r : Result A) : M A := fun w => (r, w).

(** ** The program *)

(** The command [b'R\r']. *)
Definition READ_COMMAND : list byte := [x52; x0d].

(** [read_temperature_f(ser)] (lines 26-35) *)
Definition read_temperature_f (t : Tick) : M (option float) :=
  call (on_reset t) ;;
  ser_write READ_COMMAND (on_command t) ;;
  sleep 1 (on_settle t) ;;
  data <- ser_read 64 (on_read t) ;;
  lift (decode_packet data).

(** The text of line 53, [f"{timestamp} {temp_f:.1f}°F"]. *)
Definition log_line (now : datetime) (temp_f : option float) : Result string :=
  match format_temp temp_f with
  | Return temp => Return (strftime now ++ " " ++ temp ++ degree ++ "F")
  | Raise e => Raise e
  | Blocked => Blocked
  end.

(** [log_temperature(ser)] (lines 45-62) *)
Definition log_temperature (t : Tick) : M unit :=
  temp_f <- try_except (read_temperature_f t) is_SerialException
              (fun e => print (Line ("Serial error: " ++ exn_message e)) ;;
                        ret None) ;;
  line <- lift (log_line (now_log t) temp_f) ;;
  print (Line line) ;;
  with_open_append (on_open t)
    (file_write (line ++ newline) (on_file_write t)) ;;
  try_except (requests_post APPS_SCRIPT_URL line 10 (on_post t)) is_Exception
    (fun e => print (Line ("Google Doc post failed: " ++ exn_message e))).

(** The [while True] loop of [main] (lines 85-90), over the observed
    rounds. *)
Fixpoint sampling_loop (rs : list Round) : M unit :=
  match rs with
  | [] => blocked
  | r :: rest =>
      let wait := seconds_to_next_quarter (now_sched r) in
      print (NextLogAt (now_next r) wait) ;;
      sleep wait (on_sleep r) ;;
      log_temperature (tick r) ;;
      sampling_loop rest
  end.

(** The remediation hint of lines 70-75. *)
Definition connect_tip (h : Host) : list Printed :=
  if prefix "win" (sys_platform h) then
    [Line "Tip: check Device Manager to confirm the COM port number,";
     Line "     then update PORT at the top of this script if needed."]
  else
    [Line "Tip: run with:  sg dialout -c 'python3 main.py'";
     Line "     or add yourself to dialout: sudo usermod -aG dialout $USER"].

Fixpoint print_all (ps : list Printed) : M unit :=
  match ps with
  | [] => ret tt
  | p :: rest => print p ;; print_all rest
  end.

(** The Running phase: lines 82-90. *)
Definition running (s : Session) : M unit :=
  log_temperature (first_tick s) ;;
  sampling_loop (rounds s).

(** [main()] (lines 65-95) *)
Definition main (h : Host) (s : Session) : M unit :=
  try_except (serial_Serial (on_connect s)) is_SerialException
    (fun e =>
       print (Line ("Error: could not open " ++ PORT (sys_platform h) ++ ": "
                    ++ exn_message e)) ;;
       print_all (connect_tip h) ;;
       raise (SystemExit 1)) ;;
  print (Line ("Connected to " ++ PORT (sys_platform h) ++ " at "
               ++ decimal BAUD ++ " baud")) ;;
  print (Line ("Logging to " ++ LOG_FILE h)) ;;
  try_finally
    (try_except (running s) is_KeyboardInterrupt
       (fun _ => print (Line (newline ++ "Stopped."))))
    ser_close.

(** The exit status of the interpreter once [main()] has ended: 0 after a
    normal return, the argument of [sys.exit], 1 after any other uncaught
    exception (the traceback is printed), and death by SIGINT, reported as
    130, after an uncaught [KeyboardInterrupt].  [None] while the script is
    still running. *)
Definition exit_status (r : Result unit) : option Z :=
  match r with
  | Return _ => Some 0
  | Raise (SystemExit code) => Some code
  | Raise KeyboardInterrupt => Some 130
  | Raise _ => Some 1
  | Blocked => None
  end.

(** [python3 main.py] on host [h] against the session [s]. *)
Definition run (h : Host) (s : Session) : Result unit * World :=
  main h s initial_world.

(** * Definitions used by the statements *)

(** ** Observations of one tick and of one run *)

(** The reading a tick's device exchange produces; it does not depend on the
    state of the program. *)
Definition tick_reading (t : Tick) : Result (option float) :=
  fst (read_temperature_f t initial_world).

(** The device read of a tick fails: a serial fault is raised, or the packet
    is too short and the temperature is absent. *)
Definition read_fails (t : Tick) : Prop :=
  tick_reading t = Return None
  \/ exists m, tick_reading t = Raise (SerialException m).

(** What line 53 raises when the temperature is absent. *)
Definition NoneType_format : exn :=
  TypeError "unsupported format string passed to NoneType.__format__".

(** The text of the log line for a tick whose reading is [x]. *)
Definition line_of (t : Tick) (x : float) : string :=
  strftime (now_log t) ++ " " ++ format_1f x ++ degree ++ "F".

(** The state once the log line of a present reading has been printed. *)
Definition printed (line : string) (w : World) : World :=
  mk_World (console w ++ [Line line]) (log_file w) (open_handles w) (posts w)
    (ser_is_open w) (ser_sent w) (slept w).

(** One call of [log_temperature] seen from outside: its outcome and the
    state it leaves. *)
Definition log_outcome (t : Tick) (w : World) : Result unit :=
  fst (log_temperature t w).

Definition log_world (t : Tick) (w : World) : World :=
  snd (log_temperature t w).

(** The log-file append of a tick fails with [e]: [open] raises it, or
    [open] succeeds and [write] raises it. *)
Definition append_fails (t : Tick) (e : exn) : Prop :=
  on_open t = Raises e
  \/ (on_open t = Returns tt /\ on_file_write t = Raises e).

Definition append_succeeds (t : Tick) : Prop :=
  on_open t = Returns tt /\ on_file_write t = Returns tt.

(** The remote submission of a tick was attempted. *)
Definition submission_attempted (t : Tick) (w : World) : Prop :=
  posts (log_world t w) <> posts w.

(** The tick [t] with the reply of [requests.post] replaced by [r]: a
    returned response, whatever its status, or an exception. *)
Definition with_post (t : Tick) (r : Reply unit) : Tick :=
  mk_Tick (on_reset t) (on_command t) (on_settle t) (on_read t) (now_log t)
    (on_open t) (on_file_write t) r.

(** The state when the Running phase starts. *)
Definition connected (h : Host) : World :=
  mk_World
    [Line ("Connected to " ++ PORT (sys_platform h) ++ " at " ++ decimal BAUD
           ++ " baud");
     Line ("Logging to " ++ LOG_FILE h)]
    "" 0 [] true [] [].

Definition closed (w : World) : World :=
  mk_World (console w) (log_file w) (open_handles w) (posts w) false
    (ser_sent w) (slept w).

(** How [main] ends once the Running phase has ended with [rw]. *)
Definition shutdown (rw : Result unit * World) : Result unit * World :=
  match rw with
  | (Blocked, w) => (Blocked, w)
  | (Raise KeyboardInterrupt, w) =>
      (Return tt, closed (printed (newline ++ "Stopped.") w))
  | (r, w) => (r, closed w)
  end.



(** A duration in (0, 900], by the float comparisons. *)
Definition duration_ok (d : float) : Prop :=
  (0 <? d)%float = true /\ (d <=? 900)%float = true.

Definition sleeps_ok (w : World) : Prop := Forall duration_ok (slept w).

(** A computation that hands only durations in (0, 900] to [time.sleep]. *)
Definition keeps_sleeps_ok {A : Type} (m : M A) : Prop :=
  forall w, sleeps_ok w -> sleeps_ok (snd (m w)).

(** ** The scheduler's formula in the specification's words *)

(** [(minutes mod 15) * 60 + seconds + fractional_seconds], every operation
    in binary64. *)
Definition elapsed_formula (now : datetime) : float :=
  (float_of_int (minute now mod 15) * 60 + float_of_int (second now)
   + float_of_int (microsecond now) / 1e6)%float.

(** ** Binary64 values as integers *)

(** [m * 2^e] counted in units of [2^-1074], the smallest positive binary64
    number: an integer for every exponent a valid float can have. *)
Definition in_ulps (m e : Z) : Z := m * 2 ^ (e + 1074).

(** [x] is zero or a valid positive float of value at most [b] units. *)
Definition nonneg_below (x : spec_float) (b : Z) : Prop :=
  match x with
  | S754_zero _ => True
  | S754_finite false m e =>
      bounded prec emax m e = true /\ in_ulps (Z.pos m) e <= b
  | _ => False
  end.

(** The largest fraction of a second the clock can show, and the largest
    float below 900. *)
Definition fraction_max : float := (float_of_int 999999 / 1e6)%float.

Definition below_900 : float := next_down 900.

(** ** Checks over a range of integers *)

(** [p] holds for the [n] integers from [z] on. *)
Fixpoint all_from (n : nat) (z : Z) (p : Z -> bool) : bool :=
  match n with
  | O => true
  | S k => p z && all_from k (z + 1) p
  end.

(** The fraction [us / 1e6] is between 0 and [fraction_max]. *)
Definition fraction_in_range (us : Z) : bool :=
  let f := (float_of_int us / 1e6)%float in
  ((0 <=? f) && (f <=? fraction_max))%float.

(** [float(k)] is between 0 and 899. *)
Definition whole_in_range (k : Z) : bool :=
  let kf := float_of_int k in
  ((0 <=? kf) && (kf <=? 899))%float.

(** ** Sample behaviours of the outside world *)

Definition linux : Host := mk_Host "linux" "/home/pi/temperaturealert".

Definition sample_now : datetime := mk_datetime 2024 3 9 10 7 30 0.

(** A packet whose bytes 9 and 10 hold 800 = 0x0320. *)
Definition packet_800 : list byte :=
  [x00; x00; x00; x00; x00; x00; x00; x00; x00; x20; x03; x00; x00; x00; x00;
   x00; x00; x00].

(** A tick in which everything answers and the device sends [data]. *)
Definition tick_reading_data (data : list byte) : Tick :=
  mk_Tick (Returns tt) (Returns tt) (Returns tt) (Returns data) sample_now
    (Returns tt) (Returns tt) (Returns tt).

Definition good_tick : Tick := tick_reading_data packet_800.

(** The device stays silent: [ser.read(64)] times out with no bytes. *)
Definition silent_tick : Tick := tick_reading_data [].

(** The device is unplugged: the write to the port raises. *)
Definition unplugged_tick : Tick :=
  mk_Tick (Returns tt) (Raises (SerialException "write failed"))
    (Returns tt) (Returns []) sample_now (Returns tt) (Returns tt) (Returns tt).



Definition read_only : exn := OSError "[Errno 13] Permission denied".

(** The log file cannot be opened. *)
Definition read_only_tick : Tick :=
  mk_Tick (Returns tt) (Returns tt) (Returns tt) (Returns packet_800)
    sample_now (Raises read_only) (Returns tt) (Returns tt).

Definition offline : exn := RequestException "Connection refused".

(** The remote endpoint cannot be reached. *)
Definition offline_tick : Tick :=
  mk_Tick (Returns tt) (Returns tt) (Returns tt) (Returns packet_800)
    sample_now (Returns tt) (Returns tt) (Raises offline).

Definition good_round : Round :=
  mk_Round sample_now sample_now (Returns tt) good_tick.


(** The operator presses Ctrl-C during the first inter-tick sleep. *)
Definition interrupted_session : Session :=
  mk_Session (Returns tt) good_tick
    [mk_Round sample_now sample_now (Raises KeyboardInterrupt) good_tick].


(** ** Definitions for the invariants, the steady state and the text checks *)

(** The reading of raw value [v] lies between the readings of the two
    extreme raw values, is below 32.0 exactly when [v] is negative and is
    32.0 exactly when [v] is zero. *)
Definition raw_reading_checks (v : Z) : bool :=
  let x := fahrenheit_of_raw v in
  ((fahrenheit_of_raw (-32768) <=? x)%float
   && (x <=? fahrenheit_of_raw 32767)%float
   && (-3655 <? x)%float && (x <? 3719)%float
   && Bool.eqb (x <? 32)%float (v <? 0)
   && Bool.eqb (x =? 32)%float (v =? 0))%bool.

(** [m] keeps [P]: whatever the outcome, the state it leaves satisfies [P]
    when the state it starts from does. *)
Definition preserves {A : Type} (P : World -> Prop) (m : M A) : Prop :=
  forall w, P w -> P (snd (m w)).

(** A tick that [log_temperature] gets through: the device yields a reading,
    the append succeeds, and the submission returns or raises something the
    [except Exception] clause catches. *)
Definition tick_ok (t : Tick) : Prop :=
  (exists x, tick_reading t = Return (Some x))
  /\ append_succeeds t
  /\ (on_post t = Returns tt
      \/ exists e, on_post t = Raises e /\ is_Exception e = true).

Definition only_read_commands (w : World) : Prop :=
  Forall (eq READ_COMMAND) (ser_sent w).

Definition extends_log (old : string) (w : World) : Prop :=
  exists suffix, log_file w = old ++ suffix.

(** The operator presses Ctrl-C while the device is read. *)
Definition interrupted_read_tick : Tick :=
  mk_Tick (Returns tt) (Returns tt) (Returns tt) (Raises KeyboardInterrupt)
    sample_now (Returns tt) (Returns tt) (Returns tt).

(** The operator presses Ctrl-C while the line is submitted. *)
Definition interrupted_post_tick : Tick :=
  mk_Tick (Returns tt) (Returns tt) (Returns tt) (Returns packet_800)
    sample_now (Returns tt) (Returns tt) (Raises KeyboardInterrupt).

(** A turn of the loop that is followed by another: the sleep returns and
    the tick gets through [log_temperature]. *)
Definition round_ok (r : Round) : Prop :=
  on_sleep r = Returns tt /\ tick_ok (tick r).

(** The ticks of a session, in the order the script goes through them. *)
Definition ticks (s : Session) : list Tick :=
  first_tick s :: map tick (rounds s).

(** The log line of a tick, when its reading is present. *)
Definition reading_line (t : Tick) : string :=
  match tick_reading t with
  | Return (Some x) => line_of t x
  | _ => ""
  end.

Fixpoint lines_of (ts : list Tick) : string :=
  match ts with
  | [] => ""
  | t :: rest => reading_line t ++ newline ++ lines_of rest
  end.

(** The state when the tick of a round starts: the next log time has been
    printed and the wait has been slept. *)
Definition before_tick (r : Round) (w : World) : World :=
  mk_World
    (console w ++ [NextLogAt (now_next r) (seconds_to_next_quarter (now_sched r))])
    (log_file w) (open_handles w) (posts w) (ser_is_open w) (ser_sent w)
    (slept w ++ [seconds_to_next_quarter (now_sched r)]).

(** The endpoint is unreachable at the second tick; the third goes through
    again. *)
Definition patchy_session : Session :=
  mk_Session (Returns tt) good_tick
    [mk_Round sample_now sample_now (Returns tt) offline_tick; good_round].

(** The text of [n] padded to [width] characters has exactly that width. *)
Definition padded_width_checks (width : nat) (n : Z) : bool :=
  Nat.eqb (String.length (zfill width (decimal n))) width.

(** [round_half_even_shift] computed on the bits: the quotient is a right
    shift and the remainder a mask. *)
Definition round_half_even_bits (num : Z) (k : Z) : Z :=
  let q := Z.shiftr num k in
  let r := Z.land num (Z.ones k) in
  match (2 * r ?= Z.shiftl 1 k) with
  | Lt => q
  | Gt => q + 1
  | Eq => if Z.even q then q else q + 1
  end.

(** The tenths that [format_1f] prints for the reading of raw value [v] are
    within half a tenth of the exact temperature [v / 16 * 9 / 5 + 32]:
    with [T] the signed tenths, [|8 T - (9 v + 2560)| <= 4]. *)
Definition printed_tenths_checks (v : Z) : bool :=
  match Prim2SF (fahrenheit_of_raw v) with
  | S754_finite s m e =>
      (e <? 0)
      && (let tenths := round_half_even_bits (10 * Z.pos m) (- e) in
          (0 <=? tenths)
          && (Z.abs (8 * (if s then - tenths else tenths) - (9 * v + 2560))
              <=? 4))
  | _ => false
  end.

(** The two hints of lines 70-75. *)
Definition COM_port_tip : list Printed :=
  [Line "Tip: check Device Manager to confirm the COM port number,";
   Line "     then update PORT at the top of this script if needed."].

Definition dialout_tip : list Printed :=
  [Line "Tip: run with:  sg dialout -c 'python3 main.py'";
   Line "     or add yourself to dialout: sudo usermod -aG dialout $USER"].

Definition macos : Host := mk_Host "darwin" "/Users/pi/temperaturealert".

(** ** The log file as a list of lines *)




(** ** The program on a standard output that can refuse a write *)

(** What the standard output answers to the [print] calls of one call of
    [log_temperature]. *)
Record TickPrints : Type := mk_TickPrints {
  on_print_serial_error : Reply unit;   (* print(f"Serial error: {e}"), line 50 *)
  on_print_line : Reply unit;           (* print(line), line 55 *)
  on_print_post_failed : Reply unit     (* print(f"Google Doc post failed: {e}"), line 62 *)
}.

(** One turn of the loop with the answers of the standard output. *)
Record RoundOut : Type := mk_RoundOut {
  round_of : Round;
  on_print_next : Reply unit;           (* print(f"Next log at ..."), line 88 *)
  prints_of : TickPrints
}.

(** One run of the script with the answers of the standard output. *)
Record SessionOut : Type := mk_SessionOut {
  on_connect_out : Reply unit;          (* serial.Serial(PORT, BAUD, timeout=2) *)
  on_print_error : Reply unit;          (* line 69 *)
  on_print_tip_1 : Reply unit;          (* line 71 or 74 *)
  on_print_tip_2 : Reply unit;          (* line 72 or 75 *)
  on_print_connected : Reply unit;      (* line 78 *)
  on_print_logging : Reply unit;        (* line 79 *)
  first_tick_out : Tick;
  first_prints : TickPrints;
  rounds_out : list RoundOut;
  on_print_stopped : Reply unit         (* line 93 *)
}.

Module Stdout.

(** [print(...)]: nothing is written when the call raises. *)
Definition print (r : Reply unit) (p : Printed) : M unit :=
  call r ;; print p.

(** [log_temperature(ser)] (lines 45-62) *)
Definition log_temperature (t : Tick) (o : TickPrints) : M unit :=
  temp_f <- try_except (read_temperature_f t) is_SerialException
              (fun e => print (on_print_serial_error o)
                          (Line ("Serial error: " ++ exn_message e)) ;;
                        ret None) ;;
  line <- lift (log_line (now_log t) temp_f) ;;
  print (on_print_line o) (Line line) ;;
  with_open_append (on_open t)
    (file_write (line ++ newline) (on_file_write t)) ;;
  try_except (requests_post APPS_SCRIPT_URL line 10 (on_post t)) is_Exception
    (fun e => print (on_print_post_failed o)
                (Line ("Google Doc post failed: " ++ exn_message e))).

(** The [while True] loop of [main] (lines 85-90). *)
Fixpoint sampling_loop (rs : list RoundOut) : M unit :=
  match rs with
  | [] => blocked
  | r :: rest =>
      let wait := seconds_to_next_quarter (now_sched (round_of r)) in
      print (on_print_next r) (NextLogAt (now_next (round_of r)) wait) ;;
      sleep wait (on_sleep (round_of r)) ;;
      log_temperature (tick (round_of r)) (prints_of r) ;;
      sampling_loop rest
  end.

Fixpoint print_all (ps : list (Reply unit * Printed)) : M unit :=
  match ps with
  | [] => ret tt
  | (r, p) :: rest => print r p ;; print_all rest
  end.

(** The Running phase: lines 82-90. *)
Definition running (s : SessionOut) : M unit :=
  log_temperature (first_tick_out s) (first_prints s) ;;
  sampling_loop (rounds_out s).

(** [main()] (lines 65-95) *)
Definition main (h : Host) (s : SessionOut) : M unit :=
  try_except (serial_Serial (on_connect_out s)) is_SerialException
    (fun e =>
       print (on_print_error s)
         (Line ("Error: could not open " ++ PORT (sys_platform h) ++ ": "
                ++ exn_message e)) ;;
       print_all (combine [on_print_tip_1 s; on_print_tip_2 s]
                    (connect_tip h)) ;;
       raise (SystemExit 1)) ;;
  print (on_print_connected s)
    (Line ("Connected to " ++ PORT (sys_platform h) ++ " at "
           ++ decimal BAUD ++ " baud")) ;;
  print (on_print_logging s) (Line ("Logging to " ++ LOG_FILE h)) ;;
  try_finally
    (try_except (running s) is_KeyboardInterrupt
       (fun _ => print (on_print_stopped s) (Line (newline ++ "Stopped."))))
    ser_close.

(** [python3 main.py] on host [h] against the session [s]. *)
Definition run (h : Host) (s : SessionOut) : Result unit * World :=
  main h s initial_world.

(** One call of [log_temperature] seen from outside. *)
Definition log_outcome (t : Tick) (o : TickPrints) (w : World) : Result unit :=
  fst (log_temperature t o w).

Definition log_world (t : Tick) (o : TickPrints) (w : World) : World :=
  snd (log_temperature t o w).

(** A tick that [log_temperature] gets through: the device yields a
    reading, the line is printed, the append succeeds, and the submission
    returns or raises something the [except Exception] clause catches and
    reports. *)
Definition tick_ok (t : Tick) (o : TickPrints) : Prop :=
  (exists x, tick_reading t = Return (Some x))
  /\ on_print_line o = Returns tt
  /\ append_succeeds t
  /\ (on_post t = Returns tt
      \/ exists e, on_post t = Raises e /\ is_Exception e = true
                   /\ on_print_post_failed o = Returns tt).

(** A turn of the loop that is followed by another. *)
Definition round_ok (r : RoundOut) : Prop :=
  on_print_next r = Returns tt /\ on_sleep (round_of r) = Returns tt
  /\ tick_ok (tick (round_of r)) (prints_of r).

(** The connection was opened and one of the two prints between
    [serial.Serial] and the [try] of line 81 raised. *)
Definition banner_fails (s : SessionOut) : Prop :=
  on_connect_out s = Returns tt
  /\ ((exists e, on_print_connected s = Raises e)
      \/ (on_print_connected s = Returns tt
          /\ exists e, on_print_logging s = Raises e)).

(** How [main] ends once the Running phase has ended with [rw]. *)
Definition shutdown (stopped : Reply unit) (rw : Result unit * World)
    : Result unit * World :=
  match rw with
  | (Blocked, w) => (Blocked, w)
  | (Raise KeyboardInterrupt, w) =>
      match stopped with
      | Returns _ => (Return tt, closed (printed (newline ++ "Stopped.") w))
      | Raises e => (Raise e, closed w)
      end
  | (r, w) => (r, closed w)
  end.

(** The standard output accepts every write. *)
Definition accepts (o : TickPrints) : Prop :=
  on_print_serial_error o = Returns tt /\ on_print_line o = Returns tt
  /\ on_print_post_failed o = Returns tt.

Definition accepts_round (r : RoundOut) : Prop :=
  on_print_next r = Returns tt /\ accepts (prints_of r).

Definition accepts_all (s : SessionOut) : Prop :=
  on_print_error s = Returns tt /\ on_print_tip_1 s = Returns tt
  /\ on_print_tip_2 s = Returns tt /\ on_print_connected s = Returns tt
  /\ on_print_logging s = Returns tt /\ accepts (first_prints s)
  /\ Forall accepts_round (rounds_out s) /\ on_print_stopped s = Returns tt.

(** The session without the standard output. *)
Definition session_of (s : SessionOut) : Session :=
  mk_Session (on_connect_out s) (first_tick_out s)
    (map round_of (rounds_out s)).

End Stdout.

(** The standard output is a pipe whose reader has gone. *)
Definition broken_pipe : exn := OSError "[Errno 32] Broken pipe".

Definition writable : TickPrints :=
  mk_TickPrints (Returns tt) (Returns tt) (Returns tt).

(** The device and both sinks work; the standard output breaks when the
    banner is printed. *)
Definition broken_banner_session : SessionOut :=
  mk_SessionOut (Returns tt) (Returns tt) (Returns tt) (Returns tt)
    (Raises broken_pipe) (Returns tt) good_tick writable [] (Returns tt).

(** The device and both sinks work and so does the standard output. *)
Definition quiet_session : SessionOut :=
  mk_SessionOut (Returns tt) (Returns tt) (Returns tt) (Returns tt)
    (Returns tt) (Returns tt) good_tick writable
    [mk_RoundOut good_round (Returns tt) writable] (Returns tt).

(** The operator presses Ctrl-C while the first line is submitted. *)
Definition interrupted_post_session : SessionOut :=
  mk_SessionOut (Returns tt) (Returns tt) (Returns tt) (Returns tt)
    (Returns tt) (Returns tt) interrupted_post_tick writable
    [mk_RoundOut good_round (Returns tt) writable] (Returns tt).

(** The standard output breaks when the first line is printed. *)
Definition refusing : TickPrints :=
  mk_TickPrints (Returns tt) (Raises broken_pipe) (Returns tt).

Definition refused_line_session : SessionOut :=
  mk_SessionOut (Returns tt) (Returns tt) (Returns tt) (Returns tt)
    (Returns tt) (Returns tt) good_tick refusing [] (Returns tt).

(** * Properties *)

(** ** Checking a predicate over a range of integers *)

Lemma all_from_spec (p : Z -> bool) :
  forall n z, all_from n z p = true ->
  forall k, z <= k < z + Z.of_nat n -> p k = true.
Proof.
  induction n as [|n IH]; intros z H k Hk.
  - simpl in Hk. lia.
  - cbn [all_from] in H. apply andb_true_iff in H as [Hz Hrest].
    destruct (Z.eq_dec k z) as [->|Hne]; [exact Hz|].
    apply (IH (z + 1) Hrest). lia.
Qed.

(** ** The packet decoder *)

Lemma byte_value_range (b : byte) : 0 <= byte_value b <= 255.
Proof.
  unfold byte_value. pose proof (Byte.to_N_bounded b). lia.
Qed.

Lemma skipn_two (A : Type) (n : nat) (l : list A) :
  (S (S n) <= List.length l)%nat ->
  exists a b rest, skipn n l = a :: b :: rest
    /\ nth_error l n = Some a /\ nth_error l (S n) = Some b.
Proof.
  revert l. induction n as [|n IH]; intros l Hlen.
  - destruct l as [|a [|b rest]]; simpl in Hlen; try lia.
    exists a, b, rest. repeat split.
  - destruct l as [|x l]; simpl in Hlen; [lia|].
    destruct (IH l ltac:(lia)) as (a & b & rest & Hs & Ha & Hb).
    exists a, b, rest. repeat split; assumption.
Qed.

Lemma unpack_from_h_le_ok (data : list byte) (offset : nat) :
  (S (S offset) <= List.length data)%nat ->
  exists lo hi v,
    nth_error data offset = Some lo /\ nth_error data (S offset) = Some hi
    /\ -32768 <= v <= 32767
    /\ v mod 65536 = byte_value lo + 256 * byte_value hi
    /\ unpack_from_h_le data offset = Return v.
Proof.
  intros Hlen.
  destruct (skipn_two _ offset data Hlen) as (lo & hi & rest & Hs & Hlo & Hhi).
  pose proof (byte_value_range lo) as Rlo.
  pose proof (byte_value_range hi) as Rhi.
  unfold unpack_from_h_le. rewrite Hs.
  set (u := byte_value lo + 256 * byte_value hi).
  assert (Hu : 0 <= u < 65536) by (unfold u; lia).
  exists lo, hi, (if u <? 32768 then u else u - 65536).
  repeat split; try assumption.
  - destruct (Z.ltb_spec u 32768); lia.
  - destruct (Z.ltb_spec u 32768); lia.
  - destruct (Z.ltb_spec u 32768).
    + apply Z.mod_small. lia.
    + replace (u - 65536) with (u + (-1) * 65536) by lia.
      rewrite Z_mod_plus_full. apply Z.mod_small. lia.
Qed.

(** Every 16-bit raw value converts to within [2^-42] of the rational
    formula: checked value by value. *)
Lemma fahrenheit_of_raw_accurate (v : Z) :
  -32768 <= v <= 32767 ->
  within (1 # 2 ^ 42) (fahrenheit_of_raw v) (fahrenheit_exact v) = true.
Proof.
  intros Hv.
  assert (H : all_from (Z.to_nat 65536) (-32768)
                (fun r => within (1 # 2 ^ 42) (fahrenheit_of_raw r)
                            (fahrenheit_exact r)) = true)
    by (vm_cast_no_check (eq_refl true)).
  apply (all_from_spec _ _ _ H). lia.
Qed.

Lemma decode_packet_long (data : list byte) :
  (18 <= List.length data)%nat ->
  exists lo hi v,
    nth_error data 9 = Some lo /\ nth_error data 10 = Some hi
    /\ -32768 <= v <= 32767
    /\ v mod 65536 = byte_value lo + 256 * byte_value hi
    /\ decode_packet data = Return (Some (fahrenheit_of_raw v)).
Proof.
  intros Hlen.
  destruct (unpack_from_h_le_ok data TEMP1_OFFSET)
    as (lo & hi & v & Hlo & Hhi & Hrange & Hmod & Hunpack).
  { unfold TEMP1_OFFSET. lia. }
  exists lo, hi, v. repeat split; try assumption; try lia.
  unfold decode_packet. rewrite Hunpack.
  destruct (Nat.ltb_spec (List.length data) PACKET_LEN) as [Hlt|_].
  - unfold PACKET_LEN in Hlt. lia.
  - reflexivity.
Qed.

Lemma decode_packet_short (data : list byte) :
  (List.length data < 18)%nat -> decode_packet data = Return None.
Proof.
  intros Hlt. unfold decode_packet.
  destruct (Nat.ltb_spec (List.length data) PACKET_LEN) as [_|Hge].
  - reflexivity.
  - unfold PACKET_LEN in Hge. lia.
Qed.

(** C3: a buffer of at least 18 bytes decodes to the Fahrenheit value of the
    signed little-endian 16-bit integer [v] held at byte offset 9: the
    binary64 result of [(v/16.0)*9/5 + 32], which is within [2^-42] of that
    formula over the rationals; for [v = 800] it is 122.0. *)
Theorem decode_packet_fahrenheit (data : list byte) :
  (18 <= List.length data)%nat ->
  exists lo hi v,
    nth_error data 9 = Some lo /\ nth_error data 10 = Some hi
    /\ -32768 <= v <= 32767
    /\ v mod 65536 = byte_value lo + 256 * byte_value hi
    /\ decode_packet data
       = Return (Some (float_of_int v / 16 * 9 / 5 + 32)%float)
    /\ within (1 # 2 ^ 42) (float_of_int v / 16 * 9 / 5 + 32)%float
         ((v # 16) * (9 # 5) + 32)%Q = true
    /\ (v = 800 -> decode_packet data = Return (Some 122%float)).
Proof.
  intros Hlen.
  destruct (decode_packet_long data Hlen)
    as (lo & hi & v & Hlo & Hhi & Hrange & Hmod & Hdec).
  exists lo, hi, v. repeat split; try assumption; try lia.
  - apply (fahrenheit_of_raw_accurate v Hrange).
  - intros ->. rewrite Hdec. reflexivity.
Qed.

Lemma decode_packet_fahrenheit_witness :
  (18 <= List.length packet_800)%nat /\
  exists lo hi v,
    nth_error packet_800 9 = Some lo /\ nth_error packet_800 10 = Some hi
    /\ -32768 <= v <= 32767
    /\ v mod 65536 = byte_value lo + 256 * byte_value hi
    /\ decode_packet packet_800
       = Return (Some (float_of_int v / 16 * 9 / 5 + 32)%float)
    /\ within (1 # 2 ^ 42) (float_of_int v / 16 * 9 / 5 + 32)%float
         ((v # 16) * (9 # 5) + 32)%Q = true
    /\ (v = 800 -> decode_packet packet_800 = Return (Some 122%float)).
Proof.
  split.
  - simpl. lia.
  - apply (decode_packet_fahrenheit packet_800). simpl. lia.
Defined.

(** C4: a buffer shorter than 18 bytes decodes to the absent value, decoding
    raises for no buffer at all, and the length is the only test: the result
    is absent exactly when the buffer is shorter than 18 bytes. *)
Theorem decode_packet_absent_iff_short (data : list byte) :
  (exists r, decode_packet data = Return r)
  /\ (decode_packet data = Return None <-> (List.length data < 18)%nat).
Proof.
  destruct (Nat.lt_ge_cases (List.length data) 18) as [Hlt|Hge].
  - pose proof (decode_packet_short data Hlt) as H.
    split; [exists None; exact H|].
    split; intros _; [exact Hlt | exact H].
  - destruct (decode_packet_long data Hge) as (_ & _ & v & _ & _ & _ & _ & Hdec).
    rewrite Hdec. split; [eexists; reflexivity|].
    split; [discriminate | lia].
Qed.

(** ** The scheduler *)

Lemma datetime_ok_fields (t : datetime) :
  datetime_ok t = true ->
  0 <= minute t < 60 /\ 0 <= second t < 60 /\ 0 <= microsecond t < 1000000.
Proof.
  unfold datetime_ok. rewrite !andb_true_iff.
  rewrite !Z.leb_le, !Z.ltb_lt. lia.
Qed.

(** The whole seconds are small integers, so summing them as [int] and
    converting once gives the float that converting first and summing in
    binary64 gives: checked for each of the 900 values. *)
Lemma whole_seconds_exact (k s : Z) :
  0 <= k < 15 -> 0 <= s < 60 ->
  float_of_int (k * 60 + s) = (float_of_int k * 60 + float_of_int s)%float.
Proof.
  intros Hk Hs.
  assert (H : all_from 15 0 (fun k =>
              all_from 60 0 (fun s =>
                PrimFloat.Leibniz.eqb (float_of_int (k * 60 + s))
                  (float_of_int k * 60 + float_of_int s)%float)) = true)
    by (vm_compute; reflexivity).
  pose proof (all_from_spec _ _ _ H k ltac:(lia)) as Hrow. cbv beta in Hrow.
  pose proof (all_from_spec _ _ _ Hrow s ltac:(lia)) as Hcell. cbv beta in Hcell.
  apply FloatAxioms.Leibniz.eqb_spec. exact Hcell.
Qed.

(** On a whole second the subtraction is exact: the result is the integer
    number of seconds left, checked for each of the 900 values. *)
Lemma whole_seconds_remaining (k : Z) :
  0 <= k < 900 ->
  (float_of_int (15 * 60) - (float_of_int k + float_of_int 0 / 1e6))%float
  = float_of_int (900 - k).
Proof.
  intros Hk.
  assert (H : all_from 900 0 (fun k =>
              PrimFloat.Leibniz.eqb
                (float_of_int (15 * 60)
                 - (float_of_int k + float_of_int 0 / 1e6))%float
                (float_of_int (900 - k))) = true)
    by (vm_compute; reflexivity).
  pose proof (all_from_spec _ _ _ H k ltac:(lia)) as Hcell. cbv beta in Hcell.
  apply FloatAxioms.Leibniz.eqb_spec. exact Hcell.
Qed.

(** C5: the scheduler returns 900 minus the elapsed part of the quarter,
    [(minute mod 15) * 60 + second + microsecond / 1e6], computed in
    binary64; on a whole second that is exactly the number of seconds left,
    and at minute 7, second 30, microsecond 0 it is 450.0. *)
Theorem seconds_to_next_quarter_formula (now : datetime) :
  datetime_ok now = true ->
  seconds_to_next_quarter now = (900 - elapsed_formula now)%float
  /\ (microsecond now = 0 ->
      seconds_to_next_quarter now
      = float_of_int (900 - ((minute now mod 15) * 60 + second now)))
  /\ (minute now = 7 -> second now = 30 -> microsecond now = 0 ->
      seconds_to_next_quarter now = 450%float).
Proof.
  intros Hok. destruct (datetime_ok_fields now Hok) as (Hm & Hs & _).
  pose proof (Z.mod_pos_bound (minute now) 15 ltac:(lia)) as Hq.
  split; [|split].
  - unfold seconds_to_next_quarter, elapsed, elapsed_formula.
    rewrite whole_seconds_exact by lia.
    reflexivity.
  - intros H0. unfold seconds_to_next_quarter, elapsed. rewrite H0.
    apply whole_seconds_remaining. lia.
  - intros H7 H30 H0. unfold seconds_to_next_quarter, elapsed.
    rewrite H7, H30, H0. reflexivity.
Qed.

Lemma seconds_to_next_quarter_formula_witness :
  datetime_ok sample_now = true
  /\ seconds_to_next_quarter sample_now = 450%float.
Proof.
  split; [reflexivity|].
  exact (proj2 (proj2 (seconds_to_next_quarter_formula sample_now eq_refl))
           eq_refl eq_refl eq_refl).
Defined.

(** C6: exactly on a quarter-hour boundary the scheduler returns 900.0, a
    full interval; the only division is by the constant 1e6. *)
Theorem seconds_to_next_quarter_on_boundary (now : datetime) :
  minute now mod 15 = 0 -> second now = 0 -> microsecond now = 0 ->
  elapsed now = 0%float /\ seconds_to_next_quarter now = 900%float.
Proof.
  intros Hm Hs Hus. unfold seconds_to_next_quarter, elapsed.
  rewrite Hm, Hs, Hus. split; reflexivity.
Qed.

Lemma seconds_to_next_quarter_on_boundary_witness :
  seconds_to_next_quarter (mk_datetime 2024 3 9 10 45 0 0) = 900%float.
Proof.
  apply (seconds_to_next_quarter_on_boundary (mk_datetime 2024 3 9 10 45 0 0));
    reflexivity.
Defined.

(** ** The logging pipeline *)

Ltac reply r := destruct r as [[]|?].

Lemma read_temperature_f_frame (t : Tick) (w : World) :
  let w1 := snd (read_temperature_f t w) in
  fst (read_temperature_f t w) = tick_reading t
  /\ console w1 = console w /\ log_file w1 = log_file w
  /\ open_handles w1 = open_handles w /\ posts w1 = posts w
  /\ ser_is_open w1 = ser_is_open w.
Proof.
  destruct t as [r1 r2 r3 r4 now r5 r6 r7].
  unfold tick_reading, read_temperature_f, ser_write, sleep, ser_read.
  reply r1; reply r2; reply r3; destruct r4 as [data|e4];
    cbn; repeat split; reflexivity.
Qed.

(** After a present reading, [log_temperature] is the three sinks in a row:
    console, log file, remote endpoint. *)
Lemma log_temperature_present (t : Tick) (w : World) (x : float) :
  tick_reading t = Return (Some x) ->
  log_temperature t w
  = (with_open_append (on_open t)
       (file_write (line_of t x ++ newline) (on_file_write t)) ;;
     try_except (requests_post APPS_SCRIPT_URL (line_of t x) 10 (on_post t))
       is_Exception
       (fun e => print (Line ("Google Doc post failed: " ++ exn_message e))))%py
      (printed (line_of t x) (snd (read_temperature_f t w))).
Proof.
  intros Hx.
  destruct (read_temperature_f_frame t w) as (Hr & _).
  unfold log_temperature.
  unfold bind at 1. unfold try_except at 1.
  destruct (read_temperature_f t w) as [r w1]. cbn [fst snd] in *.
  rewrite Hr, Hx. reflexivity.
Qed.

(** A failed append leaves [log_temperature] at once. *)
Lemma log_temperature_append_fails (t : Tick) (w : World) (x : float) (e : exn) :
  tick_reading t = Return (Some x) -> append_fails t e ->
  log_temperature t w
  = (Raise e, printed (line_of t x) (snd (read_temperature_f t w))).
Proof.
  intros Hx Hfail. rewrite (log_temperature_present t w x Hx).
  destruct (read_temperature_f t w) as [r [c lf oh ps so ss sl]].
  destruct Hfail as [Hopen | [Hopen Hwrite]].
  - unfold with_open_append. rewrite Hopen. reflexivity.
  - unfold with_open_append, file_write. rewrite Hopen, Hwrite. reflexivity.
Qed.

(** A successful append followed by the submission. *)
Lemma log_temperature_append_succeeds (t : Tick) (w : World) (x : float) :
  tick_reading t = Return (Some x) -> append_succeeds t ->
  let w1 := snd (read_temperature_f t w) in
  let w3 := mk_World (console w1 ++ [Line (line_of t x)])
              (log_file w1 ++ line_of t x ++ newline) (open_handles w1)
              (posts w1 ++ [mk_Post APPS_SCRIPT_URL (line_of t x) 10])
              (ser_is_open w1) (ser_sent w1) (slept w1) in
  log_temperature t w
  = match on_post t with
    | Returns _ => (Return tt, w3)
    | Raises e =>
        if is_Exception e
        then print (Line ("Google Doc post failed: " ++ exn_message e)) w3
        else (Raise e, w3)
    end.
Proof.
  intros Hx [Hopen Hwrite]. rewrite (log_temperature_present t w x Hx).
  destruct (read_temperature_f t w) as [r [c lf oh ps so ss sl]].
  unfold with_open_append, file_write, requests_post.
  rewrite Hopen, Hwrite.
  destruct (on_post t) as [[]|e]; [reflexivity|].
  cbn. destruct (is_Exception e); reflexivity.
Qed.

(** ** The main loop *)

Lemma main_connected (h : Host) (s : Session) :
  on_connect s = Returns tt ->
  run h s = shutdown (running s (connected h)).
Proof.
  intros Hconn. unfold run, main, serial_Serial.
  unfold bind at 1. unfold try_except at 1. rewrite Hconn.
  cbn -[running PORT LOG_FILE decimal].
  unfold try_finally, try_except, shutdown.
  match goal with
  | |- context [running s ?w] => change w with (connected h)
  end.
  destruct (running s (connected h)) as [[[]|e|] w]; try reflexivity.
  destruct e; reflexivity.
Qed.




(** A round whose tick raises ends the loop: the rounds after it never
    run. *)
Lemma sampling_loop_tick_raises (r : Round) (e : exn) :
  on_sleep r = Returns tt ->
  (forall w, log_outcome (tick r) w = Raise e) ->
  forall rest w, fst (sampling_loop (r :: rest) w) = Raise e.
Proof.
  intros Hsleep Hlog rest w.
  cbn [sampling_loop]. unfold bind at 1, print at 1, modify at 1.
  unfold bind at 1, sleep, bind at 1, modify, call. rewrite Hsleep.
  cbn -[log_temperature sampling_loop seconds_to_next_quarter].
  unfold bind.
  match goal with
  | |- context [log_temperature (tick r) ?w'] => specialize (Hlog w')
  end.
  unfold log_outcome in Hlog.
  destruct (log_temperature (tick r) _) as [res w'']. cbn [fst] in Hlog.
  subst res. reflexivity.
Qed.

Lemma running_first_tick_raises (s : Session) (w : World) (e : exn) :
  log_outcome (first_tick s) w = Raise e ->
  running s w = (Raise e, log_world (first_tick s) w).
Proof.
  unfold log_outcome, log_world, running, bind.
  destruct (log_temperature (first_tick s) w) as [r w']. cbn.
  intros ->. reflexivity.
Qed.

(** ** A failed device read *)

(** C1, what the code does: when the device read of a tick fails, the
    formatting at line 53 raises [TypeError]; no Log Line is printed,
    appended or submitted.  At the first tick the exception leaves [main]:
    the process ends with status 1 whatever rounds would follow; at a later
    tick it ends the sampling loop in the same way. *)
Theorem failed_read_raises_TypeError (t : Tick) :
  read_fails t ->
  (forall w,
     log_outcome t w = Raise NoneType_format
     /\ log_file (log_world t w) = log_file w
     /\ posts (log_world t w) = posts w
     /\ (forall line, In (Line line) (console (log_world t w)) ->
         In (Line line) (console w)
         \/ exists m, line = "Serial error: " ++ m))
  /\ (forall h rs,
        let r := run h (mk_Session (Returns tt) t rs) in
        fst r = Raise NoneType_format
        /\ exit_status (fst r) = Some 1
        /\ log_file (snd r) = ""
        /\ posts (snd r) = [])
  /\ (forall r rest w,
        tick r = t -> on_sleep r = Returns tt ->
        fst (sampling_loop (r :: rest) w) = Raise NoneType_format).
Proof.
  intros Hfail.
  assert (Hlog : forall w,
     log_outcome t w = Raise NoneType_format
     /\ log_file (log_world t w) = log_file w
     /\ posts (log_world t w) = posts w
     /\ (forall line, In (Line line) (console (log_world t w)) ->
         In (Line line) (console w)
         \/ exists m, line = "Serial error: " ++ m)).
  { intros w.
    destruct (read_temperature_f_frame t w) as (Hr & Hc & Hl & _ & Hp & _).
    assert (Heq : exists w',
      log_temperature t w = (Raise NoneType_format, w')
      /\ log_file w' = log_file w /\ posts w' = posts w
      /\ (console w' = console w
          \/ exists m,
               console w' = (console w ++ [Line ("Serial error: " ++ m)])%list)).
    { unfold log_temperature.
      unfold bind at 1. unfold try_except at 1.
      destruct (read_temperature_f t w) as [r w1]. cbn [fst snd] in *.
      rewrite Hr.
      destruct Hfail as [-> | [m ->]].
      - exists w1. repeat split; try assumption. left. assumption.
      - eexists. split; [reflexivity|]. cbn.
        repeat split; try assumption. right. exists m. rewrite Hc. reflexivity. }
    destruct Heq as (w' & Heq & Hfile & Hposts & Hcons).
    unfold log_outcome, log_world. rewrite Heq. cbn [fst snd].
    repeat split; try assumption.
    intros line Hin. destruct Hcons as [Hcons | [m Hcons]]; rewrite Hcons in Hin.
    - left. exact Hin.
    - apply in_app_or in Hin as [Hin | [Hin | []]].
      + left. exact Hin.
      + right. exists m. congruence. }
  split; [exact Hlog|]. split.
  - intros h rs r. subst r.
    rewrite (main_connected h (mk_Session (Returns tt) t rs) eq_refl).
    destruct (Hlog (connected h)) as (Hout & Hfile & Hposts & _).
    rewrite (running_first_tick_raises (mk_Session (Returns tt) t rs)
               (connected h) NoneType_format Hout).
    cbn [shutdown NoneType_format fst snd exit_status closed log_file posts
         first_tick].
    rewrite Hfile, Hposts. repeat split.
  - intros r rest w Ht Hsleep.
    apply sampling_loop_tick_raises; [exact Hsleep|].
    intros w'. rewrite Ht. apply Hlog.
Qed.

Lemma failed_read_raises_TypeError_witness :
  read_fails silent_tick /\ read_fails unplugged_tick
  /\ exit_status (fst (run linux (mk_Session (Returns tt) silent_tick
                                    [good_round]))) = Some 1
  /\ exit_status (fst (run linux (mk_Session (Returns tt) unplugged_tick
                                    [good_round]))) = Some 1.
Proof.
  assert (Hs : read_fails silent_tick) by (left; reflexivity).
  assert (Hu : read_fails unplugged_tick)
    by (right; exists "write failed"; reflexivity).
  split; [exact Hs|]. split; [exact Hu|]. split.
  - exact (proj1 (proj2 (proj1 (proj2 (failed_read_raises_TypeError
                                         silent_tick Hs))
                           linux [good_round]))).
  - exact (proj1 (proj2 (proj1 (proj2 (failed_read_raises_TypeError
                                         unplugged_tick Hu))
                           linux [good_round]))).
Defined.

(** ** The log-file sink *)




(** ** Independence of the two sinks *)

(** C7 fails on the code in one direction: when the log file cannot be
    opened, no submission is attempted. *)
Lemma append_failure_skips_submission :
  append_fails read_only_tick read_only
  /\ ~ submission_attempted read_only_tick initial_world.
Proof.
  split.
  - left. reflexivity.
  - unfold submission_attempted. intros H. apply H. reflexivity.
Qed.

(** C7 amended: whatever [requests.post] does, return a response of any
    status (line 60 drops it) or raise, the Log Line has been appended to
    the log file by then; a failed append leaves [log_temperature] before
    the submission, which is then not attempted. *)
Theorem sinks_one_way_independent (t : Tick) (x : float) :
  tick_reading t = Return (Some x) ->
  (forall r w,
     append_succeeds t ->
     log_file (log_world (with_post t r) w)
     = log_file w ++ line_of t x ++ newline)
  /\ (forall e w,
        append_fails t e ->
        log_outcome t w = Raise e /\ posts (log_world t w) = posts w).
Proof.
  intros Hx. split.
  - intros r w Happ.
    assert (Hx' : tick_reading (with_post t r) = Return (Some x)) by exact Hx.
    assert (Happ' : append_succeeds (with_post t r)) by exact Happ.
    destruct (read_temperature_f_frame (with_post t r) w) as (_ & _ & Hl & _).
    unfold log_world.
    rewrite (log_temperature_append_succeeds (with_post t r) w x Hx' Happ').
    change (line_of (with_post t r) x) with (line_of t x).
    change (on_post (with_post t r)) with r.
    destruct r as [[]|e]; [|destruct (is_Exception e)];
      unfold print, modify; cbn [snd log_file]; rewrite Hl; reflexivity.
  - intros e w Hfail.
    destruct (read_temperature_f_frame t w) as (_ & _ & _ & _ & Hp & _).
    unfold log_outcome, log_world.
    rewrite (log_temperature_append_fails t w x e Hx Hfail).
    cbn. split; [reflexivity | exact Hp].
Qed.

Lemma sinks_one_way_independent_witness :
  log_file (log_world offline_tick initial_world)
  = "20240309:10:07 122.0" ++ degree ++ "F" ++ newline.
Proof.
  assert (Hx : tick_reading good_tick = Return (Some 122%float))
    by reflexivity.
  exact (proj1 (sinks_one_way_independent good_tick _ Hx) (Raises offline)
           initial_world (conj eq_refl eq_refl)).
Defined.

(** ** The submitted body *)

(** C8 fails on the code: what is appended to the file is not what is
    submitted. *)
Lemma posted_body_differs_from_appended_text :
  ~ map post_data (posts (log_world good_tick initial_world))
    = [log_file (log_world good_tick initial_world)].
Proof. vm_compute. discriminate. Qed.

(** C8 amended: the body of the POST is the Log Line without its newline,
    [<YYYYMMDD:HH:MM> <temperature, one decimal>°F]; the text appended to
    the log file is that body followed by a newline. *)
Theorem posted_body_is_line_without_newline (t : Tick) (x : float) (w : World) :
  tick_reading t = Return (Some x) -> append_succeeds t ->
  let body := strftime (now_log t) ++ " " ++ format_1f x ++ degree ++ "F" in
  posts (log_world t w) = (posts w ++ [mk_Post APPS_SCRIPT_URL body 10])%list
  /\ log_file (log_world t w) = log_file w ++ body ++ newline.
Proof.
  intros Hx Happ body.
  destruct (read_temperature_f_frame t w) as (_ & _ & Hl & _ & Hp & _).
  unfold log_world.
  rewrite (log_temperature_append_succeeds t w x Hx Happ).
  fold (line_of t x) in body. subst body.
  destruct (on_post t) as [[]|e]; [|destruct (is_Exception e)];
    cbn; rewrite Hl, Hp; split; reflexivity.
Qed.

Lemma posted_body_is_line_without_newline_witness :
  posts (log_world good_tick initial_world)
  = [mk_Post APPS_SCRIPT_URL ("20240309:10:07 122.0" ++ degree ++ "F") 10]
  /\ log_file (log_world good_tick initial_world)
     = "20240309:10:07 122.0" ++ degree ++ "F" ++ newline.
Proof.
  exact (posted_body_is_line_without_newline good_tick 122%float initial_world
           eq_refl (conj eq_refl eq_refl)).
Defined.

(** ** The exit status *)




(** ** Rounding in binary64: bounds on sums and differences *)

Lemma digits2_pos_bounds (p : positive) :
  2 ^ (Z.pos (digits2_pos p) - 1) <= Z.pos p < 2 ^ Z.pos (digits2_pos p).
Proof.
  induction p as [p IH|p IH|]; cbn [digits2_pos].
  - rewrite Pos2Z.inj_succ.
    replace (Z.succ (Z.pos (digits2_pos p)) - 1) with (Z.succ (Z.pos (digits2_pos p) - 1)) by lia.
    rewrite !Z.pow_succ_r by lia. lia.
  - rewrite Pos2Z.inj_succ.
    replace (Z.succ (Z.pos (digits2_pos p)) - 1) with (Z.succ (Z.pos (digits2_pos p) - 1)) by lia.
    rewrite !Z.pow_succ_r by lia. lia.
  - cbn. lia.
Qed.

Lemma digits2_pos_unique (p : positive) (d : Z) :
  2 ^ (d - 1) <= Z.pos p < 2 ^ d -> Z.pos (digits2_pos p) = d.
Proof.
  intros [Hlo Hhi]. pose proof (digits2_pos_bounds p) as [Hlo' Hhi'].
  set (d' := Z.pos (digits2_pos p)) in *.
  assert (Hd' : 0 < d') by (unfold d'; lia).
  assert (Hd : 0 < d).
  { destruct (Z.lt_ge_cases 0 d) as [H|H]; [exact H|].
    assert (2 ^ d <= 2 ^ 0) by (apply Z.pow_le_mono_r; lia).
    change (2 ^ 0) with 1 in *. lia. }
  destruct (Z.lt_trichotomy d d') as [H|[H|H]]; [|exact (eq_sym H)|].
  - assert (2 ^ d <= 2 ^ (d' - 1)) by (apply Z.pow_le_mono_r; lia). lia.
  - assert (2 ^ d' <= 2 ^ (d - 1)) by (apply Z.pow_le_mono_r; lia). lia.
Qed.

Lemma shr_1_m (mrs : shr_record) :
  0 <= shr_m mrs -> shr_m (shr_1 mrs) = shr_m mrs / 2.
Proof.
  destruct mrs as [m r s]. cbn [shr_m]. intros Hm.
  destruct m as [|p|p]; [reflexivity| |lia].
  destruct p as [p|p|]; cbn [shr_1 shr_m].
  - rewrite Pos2Z.inj_xI. apply Z.div_unique with 1; lia.
  - rewrite Pos2Z.inj_xO. apply Z.div_unique with 0; lia.
  - reflexivity.
Qed.

Lemma pow2_xO (n : positive) : 2 ^ Z.pos n~0 = 2 ^ Z.pos n * 2 ^ Z.pos n.
Proof.
  replace (Z.pos n~0) with (Z.pos n + Z.pos n) by lia.
  apply Z.pow_add_r; lia.
Qed.

Lemma pow2_xI (n : positive) : 2 ^ Z.pos n~1 = 2 * (2 ^ Z.pos n * 2 ^ Z.pos n).
Proof.
  replace (Z.pos n~1) with (1 + Z.pos n~0) by lia.
  rewrite Z.pow_add_r, pow2_xO by lia. reflexivity.
Qed.

Lemma iter_pos_shr_1_m (n : positive) :
  forall mrs, 0 <= shr_m mrs ->
  shr_m (SpecFloat.iter_pos shr_1 n mrs) = shr_m mrs / 2 ^ Z.pos n.
Proof.
  induction n as [n IH|n IH|]; intros mrs Hm; cbn [SpecFloat.iter_pos].
  - assert (H1 : 0 <= shr_m (shr_1 mrs))
      by (rewrite shr_1_m by assumption; apply Z.div_pos; lia).
    assert (H2 : 0 <= shr_m (SpecFloat.iter_pos shr_1 n (shr_1 mrs)))
      by (rewrite IH by assumption; apply Z.div_pos; lia).
    rewrite IH, IH, shr_1_m by assumption.
    rewrite !Z.div_div by lia. rewrite pow2_xI. reflexivity.
  - assert (H2 : 0 <= shr_m (SpecFloat.iter_pos shr_1 n mrs))
      by (rewrite IH by assumption; apply Z.div_pos; lia).
    rewrite IH, IH by assumption.
    rewrite Z.div_div by lia. rewrite pow2_xO. reflexivity.
  - rewrite shr_1_m by assumption. reflexivity.
Qed.

Lemma fexp64 (x : Z) : fexp prec emax x = Z.max (x - 53) (-1074).
Proof. reflexivity. Qed.

Lemma bounded_facts (m : positive) (e : Z) :
  bounded prec emax m e = true ->
  -1074 <= e <= 971 /\ Z.pos m < 2 ^ 53
  /\ (-1074 < e -> 2 ^ 52 <= Z.pos m)
  /\ fexp prec emax (Z.pos (digits2_pos m) + e) = e.
Proof.
  unfold bounded, canonical_mantissa. rewrite andb_true_iff, Z.eqb_eq, Z.leb_le.
  change (emax - prec) with 971. rewrite fexp64.
  intros [Hc He]. pose proof (digits2_pos_bounds m) as [Hlo Hhi].
  set (d := Z.pos (digits2_pos m)) in *.
  assert (Hd : 0 < d) by (unfold d; lia).
  repeat split; try lia.
  - assert (d <= 53) by lia.
    assert (2 ^ d <= 2 ^ 53) by (apply Z.pow_le_mono_r; lia). lia.
  - intros Hne. assert (d = 53) by lia.
    replace 52 with (d - 1) by lia. exact Hlo.
Qed.

Lemma bounded_intro (m : positive) (e : Z) :
  fexp prec emax (Z.pos (digits2_pos m) + e) = e -> e <= 971 ->
  bounded prec emax m e = true.
Proof.
  intros Hc He. unfold bounded, canonical_mantissa.
  rewrite andb_true_iff, Z.eqb_eq, Z.leb_le. split; assumption.
Qed.

(** Rounding a mantissa that already sits at its canonical exponent changes
    nothing. *)
Lemma binary_round_aux_canonical (p : positive) (e : Z) :
  bounded prec emax p e = true ->
  binary_round_aux prec emax false (Z.pos p) e loc_Exact
  = S754_finite false p e.
Proof.
  intros Hb. destruct (bounded_facts p e Hb) as (He & _ & _ & Hc).
  unfold binary_round_aux, shr_fexp. cbn [Zdigits2 shr_record_of_loc].
  rewrite Hc, Z.sub_diag. cbn [shr shr_m loc_of_shr_record round_nearest_even].
  cbn [Zdigits2]. rewrite Hc, Z.sub_diag. cbn [shr shr_m].
  change (emax - prec) with 971.
  destruct (Z.leb_spec e 971); [reflexivity|lia].
Qed.

Lemma iter_xO (d : positive) (m : positive) :
  Z.pos (Pos.iter xO m d) = Z.pos m * 2 ^ Z.pos d.
Proof.
  revert m. induction d as [|d IH] using Pos.peano_ind; intros m.
  - cbn. lia.
  - rewrite Pos.iter_succ, Pos2Z.inj_xO, IH, Pos2Z.inj_succ, Z.pow_succ_r by lia.
    lia.
Qed.

Lemma round_nearest_even_range (m : Z) (l : location) :
  m <= round_nearest_even m l <= m + 1.
Proof.
  destruct l as [|[]]; cbn [round_nearest_even]; try lia.
  destruct (Z.even m); lia.
Qed.

Lemma in_ulps_shift (m e k : Z) :
  0 <= k -> -1074 <= e -> in_ulps (m * 2 ^ k) e = in_ulps m (e + k).
Proof.
  intros Hk He. unfold in_ulps.
  replace (e + k + 1074) with (k + (e + 1074)) by lia.
  rewrite (Z.pow_add_r 2 k (e + 1074)) by lia. lia.
Qed.

Lemma in_ulps_lt_mono (m1 m2 e : Z) :
  -1074 <= e -> in_ulps m1 e < in_ulps m2 e -> m1 < m2.
Proof.
  unfold in_ulps. intros He H.
  assert (0 < 2 ^ (e + 1074)) by (apply Z.pow_pos_nonneg; lia).
  nia.
Qed.

Lemma in_ulps_le_mono (m1 m2 e : Z) :
  -1074 <= e -> m1 <= m2 -> in_ulps m1 e <= in_ulps m2 e.
Proof.
  unfold in_ulps. intros He H.
  assert (0 < 2 ^ (e + 1074)) by (apply Z.pow_pos_nonneg; lia).
  nia.
Qed.

(** A float above [q * 2^fx], where [q] has 53 bits, is at least the next
    multiple of [2^fx]. *)
Lemma next_float_le (q fx : Z) (mB : positive) (eB : Z) :
  2 ^ 52 <= q -> -1074 <= fx -> bounded prec emax mB eB = true ->
  in_ulps q fx < in_ulps (Z.pos mB) eB ->
  in_ulps (q + 1) fx <= in_ulps (Z.pos mB) eB.
Proof.
  intros Hq Hfx Hb Hlt.
  destruct (bounded_facts mB eB Hb) as (HeB & HmB & _).
  destruct (Z.le_gt_cases fx eB) as [Hle|Hgt].
  - replace eB with (fx + (eB - fx)) in Hlt |- * by lia.
    rewrite <- in_ulps_shift in Hlt |- * by lia.
    apply in_ulps_lt_mono in Hlt; [|assumption].
    apply in_ulps_le_mono; lia.
  - exfalso.
    assert (H1 : in_ulps (Z.pos mB) eB <= in_ulps (2 ^ 53) eB)
      by (apply in_ulps_le_mono; lia).
    assert (H2 : in_ulps (2 ^ 53) eB <= in_ulps (2 ^ 52) fx).
    { unfold in_ulps. rewrite <- !Z.pow_add_r by lia.
      apply Z.pow_le_mono_r; lia. }
    assert (H3 : in_ulps (2 ^ 52) fx <= in_ulps q fx)
      by (apply in_ulps_le_mono; lia).
    lia.
Qed.

(** A 53-bit mantissa below a valid float has an exponent in range. *)
Lemma exponent_in_range (m e : Z) (mB : positive) (eB : Z) :
  2 ^ 52 <= m -> -1074 <= e -> bounded prec emax mB eB = true ->
  in_ulps m e <= in_ulps (Z.pos mB) eB -> e <= 971.
Proof.
  intros Hm He Hb Hle.
  destruct (bounded_facts mB eB Hb) as (HeB & HmB & _).
  destruct (Z.le_gt_cases e 971) as [H|H]; [exact H|exfalso].
  assert (H1 : in_ulps (Z.pos mB) eB < in_ulps (2 ^ 53) eB).
  { unfold in_ulps.
    assert (0 < 2 ^ (eB + 1074)) by (apply Z.pow_pos_nonneg; lia). nia. }
  assert (H2 : in_ulps (2 ^ 53) eB <= in_ulps (2 ^ 52) e).
  { unfold in_ulps. rewrite <- !Z.pow_add_r by lia.
    apply Z.pow_le_mono_r; lia. }
  assert (H3 : in_ulps (2 ^ 52) e <= in_ulps m e)
    by (apply in_ulps_le_mono; lia).
  lia.
Qed.

(** Rounding a positive number that lies below a valid float gives a valid
    positive float that is not above it. *)
Lemma binary_round_below (M : positive) (e : Z) (mB : positive) (eB : Z) :
  -1074 <= e -> bounded prec emax mB eB = true ->
  in_ulps (Z.pos M) e < in_ulps (Z.pos mB) eB ->
  exists m' e',
    binary_round prec emax false M e = S754_finite false m' e'
    /\ bounded prec emax m' e' = true
    /\ in_ulps (Z.pos m') e' <= in_ulps (Z.pos mB) eB.
Proof.
  intros He Hb Hlt.
  pose proof (digits2_pos_bounds M) as [Hlo Hhi].
  set (d := Z.pos (digits2_pos M)) in *.
  assert (Hd : 0 < d) by (unfold d; lia).
  unfold binary_round. fold d. rewrite fexp64.
  set (fx := Z.max (d + e - 53) (-1074)).
  unfold shl_align.
  destruct (fx - e) as [|n|k] eqn:Hdiff.
  - (* already canonical *)
    assert (Hfx : fx = e) by lia.
    assert (Hc : fexp prec emax (Z.pos (digits2_pos M) + e) = e)
      by (rewrite fexp64; fold d; fold fx; exact Hfx).
    assert (Hr : e <= 971).
    { destruct (Z.eq_dec e (-1074)) as [->|Hne]; [lia|].
      apply (exponent_in_range (Z.pos M) e mB eB); try assumption; try lia.
      replace 52 with (d - 1) by lia. exact Hlo. }
    exists M, e. split; [|split].
    + apply binary_round_aux_canonical. apply bounded_intro; assumption.
    + apply bounded_intro; assumption.
    + lia.
  - (* too many bits: the low [n] bits are rounded away *)
    assert (Hfx : fx = d + e - 53) by lia.
    assert (Hn : Z.pos n = d - 53) by lia.
    set (q := Z.pos M / 2 ^ Z.pos n).
    assert (Hpow : 0 < 2 ^ Z.pos n) by (apply Z.pow_pos_nonneg; lia).
    assert (Hq : 2 ^ 52 <= q < 2 ^ 53).
    { unfold q. split.
      - apply Z.div_le_lower_bound; [lia|].
        rewrite <- Z.pow_add_r by lia.
        replace (Z.pos n + 52) with (d - 1) by lia. exact Hlo.
      - apply Z.div_lt_upper_bound; [lia|].
        rewrite <- Z.pow_add_r by lia.
        replace (Z.pos n + 53) with d by lia. exact Hhi. }
    assert (Hqv : in_ulps q fx <= in_ulps (Z.pos M) e).
    { replace fx with (e + Z.pos n) by lia.
      rewrite <- in_ulps_shift by lia.
      apply in_ulps_le_mono; [lia|].
      unfold q. rewrite Z.mul_comm. apply Z.mul_div_le. lia. }
    assert (Hnext : in_ulps (q + 1) fx <= in_ulps (Z.pos mB) eB)
      by (apply next_float_le; try assumption; lia).
    unfold binary_round_aux, shr_fexp.
    cbn [Zdigits2 shr_record_of_loc]. fold d. rewrite fexp64. fold fx.
    rewrite Hdiff. cbn [shr].
    set (mrs := SpecFloat.iter_pos shr_1 n _).
    assert (Hmrs : shr_m mrs = q)
      by (unfold mrs; rewrite iter_pos_shr_1_m; [reflexivity|cbn; lia]).
    pose proof (round_nearest_even_range (shr_m mrs) (loc_of_shr_record mrs))
      as Hr.
    rewrite Hmrs in Hr.
    replace (e + Z.pos n) with fx by lia.
    rewrite Hmrs.
    destruct (round_nearest_even q (loc_of_shr_record mrs))
      as [|m1|m1]; try lia.
    destruct (Z.eq_dec (Z.pos m1) (2 ^ 53)) as [Hcarry|Hnocarry].
    + (* the mantissa overflows into one more bit *)
      assert (Hdig : Z.pos (digits2_pos m1) = 54)
        by (apply digits2_pos_unique; rewrite Hcarry; cbn; lia).
      cbn [Zdigits2]. rewrite Hdig, fexp64.
      replace (Z.max (54 + fx - 53) (-1074) - fx) with 1 by lia.
      cbn [shr SpecFloat.iter_pos].
      replace m1 with (4503599627370496~0)%positive
        by (apply Pos2Z.inj; rewrite Hcarry; reflexivity).
      cbn [shr_1 shr_m].
      assert (Hv : in_ulps (Z.pos 4503599627370496) (fx + 1)
                   = in_ulps (q + 1) fx).
      { rewrite <- in_ulps_shift by lia.
        replace (q + 1) with (2 ^ 53) by lia. reflexivity. }
      assert (Hrange : fx + 1 <= 971).
      { apply (exponent_in_range (Z.pos 4503599627370496) (fx + 1) mB eB);
          first [assumption | lia | cbn; lia]. }
      change (emax - prec) with 971.
      destruct (Z.leb_spec (fx + 1) 971); [|lia].
      exists 4503599627370496%positive, (fx + 1). split; [reflexivity|].
      split; [|lia].
      apply bounded_intro; [|assumption].
      rewrite fexp64.
      change (Z.pos (digits2_pos 4503599627370496)) with 53. lia.
    + assert (Hm1 : 2 ^ 52 <= Z.pos m1 < 2 ^ 53) by lia.
      assert (Hdig : Z.pos (digits2_pos m1) = 53)
        by (apply digits2_pos_unique; exact Hm1).
      cbn [Zdigits2]. rewrite Hdig, fexp64.
      replace (Z.max (53 + fx - 53) (-1074) - fx) with 0 by lia.
      cbn [shr shr_m].
      assert (Hv : in_ulps (Z.pos m1) fx <= in_ulps (Z.pos mB) eB).
      { transitivity (in_ulps (q + 1) fx); [|exact Hnext].
        apply in_ulps_le_mono; lia. }
      assert (Hrange : fx <= 971).
      { apply (exponent_in_range (Z.pos m1) fx mB eB); try assumption; lia. }
      change (emax - prec) with 971.
      destruct (Z.leb_spec fx 971); [|lia].
      exists m1, fx. split; [reflexivity|]. split; [|exact Hv].
      apply bounded_intro; [|assumption].
      rewrite Hdig, fexp64. lia.
  - (* room to spare: the mantissa is shifted left *)
    assert (Hk : Z.pos k = e - fx) by lia.
    set (M' := Pos.iter xO M k).
    assert (HM' : Z.pos M' = Z.pos M * 2 ^ Z.pos k) by apply iter_xO.
    assert (Hpow : 0 < 2 ^ Z.pos k) by (apply Z.pow_pos_nonneg; lia).
    assert (Hdig : Z.pos (digits2_pos M') = d + Z.pos k).
    { apply digits2_pos_unique. rewrite HM'.
      replace (d + Z.pos k - 1) with ((d - 1) + Z.pos k) by lia.
      rewrite !Z.pow_add_r by lia. nia. }
    assert (Hc : fexp prec emax (Z.pos (digits2_pos M') + fx) = fx).
    { rewrite Hdig, fexp64. unfold fx at 2. f_equal. lia. }
    assert (Hv : in_ulps (Z.pos M') fx = in_ulps (Z.pos M) e).
    { rewrite HM', in_ulps_shift by lia. f_equal. lia. }
    assert (Hr : fx <= 971).
    { destruct (Z.eq_dec fx (-1074)) as [Heq|Hne]; [lia|].
      apply (exponent_in_range (Z.pos M') fx mB eB); try assumption; try lia.
      rewrite HM'. replace 52 with ((d - 1) + (52 - (d - 1))) by lia.
      rewrite Z.pow_add_r by lia.
      replace (Z.pos k) with (52 - (d - 1)) by lia. nia. }
    exists M', fx. split; [|split].
    + apply binary_round_aux_canonical. apply bounded_intro; assumption.
    + apply bounded_intro; assumption.
    + lia.
Qed.

(** Valid positive floats compare as their values do. *)
Lemma SFcompare_in_ulps (m1 : positive) (e1 : Z) (m2 : positive) (e2 : Z) :
  bounded prec emax m1 e1 = true -> bounded prec emax m2 e2 = true ->
  SFcompare (S754_finite false m1 e1) (S754_finite false m2 e2)
  = Some (in_ulps (Z.pos m1) e1 ?= in_ulps (Z.pos m2) e2).
Proof.
  intros Hb1 Hb2.
  destruct (bounded_facts m1 e1 Hb1) as (He1 & Hm1 & Hn1 & _).
  destruct (bounded_facts m2 e2 Hb2) as (He2 & Hm2 & Hn2 & _).
  assert (Hstep : forall ma ea mb eb,
            -1074 <= ea < eb -> ma < 2 ^ 53 -> 2 ^ 52 <= mb ->
            in_ulps ma ea < in_ulps mb eb).
  { intros ma ea mb eb Hab Hma Hmb.
    assert (H1 : in_ulps ma ea < in_ulps (2 ^ 53) ea).
    { unfold in_ulps.
      assert (0 < 2 ^ (ea + 1074)) by (apply Z.pow_pos_nonneg; lia). nia. }
    assert (H2 : in_ulps (2 ^ 53) ea <= in_ulps (2 ^ 52) eb).
    { unfold in_ulps. rewrite <- !Z.pow_add_r by lia.
      apply Z.pow_le_mono_r; lia. }
    assert (H3 : in_ulps (2 ^ 52) eb <= in_ulps mb eb)
      by (apply in_ulps_le_mono; lia).
    lia. }
  cbn [SFcompare]. f_equal.
  destruct (Z.compare_spec e1 e2) as [Heq|Hlt|Hgt].
  - subst e2. unfold in_ulps.
    rewrite Pos.compare_cont_spec.
    change (m1 ?= m2)%positive with (Z.pos m1 ?= Z.pos m2).
    replace (Pos.switch_Eq Eq (Z.pos m1 ?= Z.pos m2))
      with (Z.pos m1 ?= Z.pos m2)
      by (destruct (Z.pos m1 ?= Z.pos m2); reflexivity).
    apply Zmult_compare_compat_r. apply Z.lt_gt.
    apply Z.pow_pos_nonneg; lia.
  - symmetry. apply Z.compare_lt_iff. apply Hstep; lia.
  - symmetry. apply Z.compare_gt_iff. apply Hstep; lia.
Qed.

(** What the two float tests [0 <= x] and [x <= b] say about [x]. *)
Lemma nonneg_below_of_tests (x : spec_float) (mB : positive) (eB : Z) :
  valid_binary x = true -> bounded prec emax mB eB = true ->
  SFleb (S754_zero false) x = true ->
  SFleb x (S754_finite false mB eB) = true ->
  nonneg_below x (in_ulps (Z.pos mB) eB).
Proof.
  intros Hvalid Hb H0 HB.
  destruct x as [s|s| |s m e].
  - exact I.
  - destruct s; discriminate.
  - discriminate.
  - destruct s; [discriminate|].
    split; [exact Hvalid|].
    unfold SFleb in HB. rewrite SFcompare_in_ulps in HB by assumption.
    destruct (Z.compare_spec (in_ulps (Z.pos m) e) (in_ulps (Z.pos mB) eB));
      try discriminate; lia.
Qed.

Lemma shl_align_in_ulps (m : positive) (e ez : Z) :
  -1074 <= ez <= e ->
  in_ulps (Z.pos (fst (shl_align m e ez))) ez = in_ulps (Z.pos m) e.
Proof.
  intros He. unfold shl_align.
  destruct (ez - e) as [|d|d] eqn:Hd; cbn [fst]; try lia.
  - f_equal. lia.
  - rewrite iter_xO, in_ulps_shift by lia. f_equal. lia.
Qed.

Lemma in_ulps_pos (m : positive) (e : Z) :
  -1074 <= e -> 0 < in_ulps (Z.pos m) e.
Proof.
  intros He. unfold in_ulps.
  assert (0 < 2 ^ (e + 1074)) by (apply Z.pow_pos_nonneg; lia). nia.
Qed.

(** The sum of two non-negative floats whose exact sum lies below a valid
    float is a non-negative float that is not above it. *)
Lemma SFadd_below (x y : spec_float) (bx by_ : Z) (mB : positive) (eB : Z) :
  nonneg_below x bx -> nonneg_below y by_ -> 0 <= bx -> 0 <= by_ ->
  bounded prec emax mB eB = true ->
  bx + by_ < in_ulps (Z.pos mB) eB ->
  nonneg_below (SFadd prec emax x y) (in_ulps (Z.pos mB) eB).
Proof.
  intros Hx Hy Hbx Hby Hb Hsum.
  destruct x as [sx|sx| |[] mx ex]; cbn [nonneg_below] in Hx;
    try contradiction;
    destruct y as [sy|sy| |[] my ey]; cbn [nonneg_below] in Hy;
    try contradiction.
  - destruct sx, sy; exact I.
  - cbn [SFadd nonneg_below]. destruct Hy as [Hby' Hv]. split; [assumption|lia].
  - cbn [SFadd nonneg_below]. destruct Hx as [Hbx' Hv]. split; [assumption|lia].
  - destruct Hx as [Hbx' Hvx], Hy as [Hby' Hvy].
    destruct (bounded_facts mx ex Hbx') as (Hex & _).
    destruct (bounded_facts my ey Hby') as (Hey & _).
    unfold SFadd, cond_Zopp.
    set (ez := Z.min ex ey).
    pose proof (shl_align_in_ulps mx ex ez ltac:(lia)) as Hax.
    pose proof (shl_align_in_ulps my ey ez ltac:(lia)) as Hay.
    set (ax := fst (shl_align mx ex ez)) in *.
    set (ay := fst (shl_align my ey ez)) in *.
    change (Z.pos ax + Z.pos ay) with (Z.pos (ax + ay)).
    cbn [binary_normalize].
    destruct (binary_round_below (ax + ay) ez mB eB) as (m' & e' & Hr & Hb' & Hv').
    + lia.
    + assumption.
    + rewrite Pos2Z.inj_add. unfold in_ulps in *. lia.
    + rewrite Hr. cbn [nonneg_below]. split; assumption.
Qed.

(** Subtracting a non-negative float from a valid positive float that is
    above it gives a valid positive float not above the minuend. *)
Lemma SFsub_below (mx : positive) (ex : Z) (y : spec_float) (by_ : Z) :
  bounded prec emax mx ex = true -> nonneg_below y by_ ->
  by_ < in_ulps (Z.pos mx) ex ->
  exists m' e',
    SFsub prec emax (S754_finite false mx ex) y = S754_finite false m' e'
    /\ bounded prec emax m' e' = true
    /\ in_ulps (Z.pos m') e' <= in_ulps (Z.pos mx) ex.
Proof.
  intros Hbx Hy Hlt.
  destruct y as [sy|sy| |[] my ey]; cbn [nonneg_below] in Hy;
    try contradiction.
  - exists mx, ex. cbn [SFsub]. repeat split; [assumption|lia].
  - destruct Hy as [Hby' Hvy].
    destruct (bounded_facts mx ex Hbx) as (Hex & _).
    destruct (bounded_facts my ey Hby') as (Hey & _).
    unfold SFsub, cond_Zopp.
    set (ez := Z.min ex ey).
    pose proof (shl_align_in_ulps mx ex ez ltac:(lia)) as Hax.
    pose proof (shl_align_in_ulps my ey ez ltac:(lia)) as Hay.
    set (ax := fst (shl_align mx ex ez)) in *.
    set (ay := fst (shl_align my ey ez)) in *.
    pose proof (in_ulps_pos my ey ltac:(lia)) as Hypos.
    assert (Hdiff : in_ulps (Z.pos ax - Z.pos ay) ez
                    = in_ulps (Z.pos mx) ex - in_ulps (Z.pos my) ey)
      by (unfold in_ulps in *; lia).
    assert (Hpos : 0 < Z.pos ax - Z.pos ay).
    { apply (in_ulps_lt_mono 0 _ ez); [lia|]. rewrite Hdiff.
      unfold in_ulps at 1. lia. }
    destruct (Z.pos ax - Z.pos ay) as [|M|M] eqn:HM; try lia.
    cbn [binary_normalize].
    apply binary_round_below; [lia|assumption|]. lia.
Qed.

(** ** The range of the scheduler *)

(** Each of the one million microsecond values gives a fraction between 0
    and [fraction_max]: checked value by value. *)
Lemma fractions_in_range (us : Z) :
  0 <= us < 1000000 -> fraction_in_range us = true.
Proof.
  intros Hus.
  assert (H : all_from (Z.to_nat 1000000) 0 fraction_in_range = true)
    by (vm_cast_no_check (eq_refl true)).
  apply (all_from_spec _ _ _ H). lia.
Qed.

Lemma wholes_in_range (k : Z) :
  0 <= k < 900 -> whole_in_range k = true.
Proof.
  intros Hk.
  assert (H : all_from 900 0 whole_in_range = true)
    by (vm_cast_no_check (eq_refl true)).
  apply (all_from_spec _ _ _ H). lia.
Qed.

(** The two float tests [0 <= x] and [x <= b], read on the values. *)
Lemma float_nonneg_below (x b : float) (mB : positive) (eB : Z) :
  Prim2SF b = S754_finite false mB eB ->
  (0 <=? x)%float = true -> (x <=? b)%float = true ->
  bounded prec emax mB eB = true
  /\ nonneg_below (Prim2SF x) (in_ulps (Z.pos mB) eB).
Proof.
  intros Hb H0 HB.
  rewrite FloatAxioms.leb_spec in H0, HB. rewrite Hb in HB.
  change (Prim2SF 0) with (S754_zero false) in H0.
  pose proof (Prim2SF_valid b) as Hvb. rewrite Hb in Hvb. cbn in Hvb.
  split; [exact Hvb|].
  apply nonneg_below_of_tests; try assumption. apply Prim2SF_valid.
Qed.

(** The heart of the scheduler's range: a whole number of seconds up to 899
    plus a fraction up to [fraction_max] stays below 900 after rounding, and
    900 minus that sum stays in (0, 900] after rounding. *)
Lemma quarter_bounds (kf f : float) :
  (0 <=? kf)%float = true -> (kf <=? 899)%float = true ->
  (0 <=? f)%float = true -> (f <=? fraction_max)%float = true ->
  (0 <=? kf + f)%float = true /\ (kf + f <? 900)%float = true
  /\ (0 <? 900 - (kf + f))%float = true
  /\ (900 - (kf + f) <=? 900)%float = true.
Proof.
  intros Hk0 Hk1 Hf0 Hf1.
  assert (E899 : Prim2SF 899 = S754_finite false 7907687626964992 (-43))
    by (vm_compute; reflexivity).
  assert (Efmax : Prim2SF fraction_max
                  = S754_finite false 9007190247541737 (-53))
    by (vm_compute; reflexivity).
  assert (E900 : Prim2SF 900 = S754_finite false 7916483719987200 (-43))
    by (vm_compute; reflexivity).
  assert (Ebelow : Prim2SF below_900
                   = S754_finite false 7916483719987199 (-43))
    by (vm_compute; reflexivity).
  destruct (float_nonneg_below kf 899 _ _ E899 Hk0 Hk1) as [_ Hkf].
  destruct (float_nonneg_below f fraction_max _ _ Efmax Hf0 Hf1) as [_ Hff].
  assert (B900 : bounded prec emax 7916483719987200 (-43) = true)
    by (pose proof (Prim2SF_valid 900) as H; rewrite E900 in H; exact H).
  assert (Bbelow : bounded prec emax 7916483719987199 (-43) = true)
    by (pose proof (Prim2SF_valid below_900) as H; rewrite Ebelow in H;
        exact H).
  assert (Hsum : nonneg_below (Prim2SF (kf + f))
                   (in_ulps (Z.pos 7916483719987199) (-43))).
  { rewrite FloatAxioms.add_spec.
    apply (SFadd_below _ _ _ _ _ _ Hkf Hff); try assumption.
    - vm_compute. discriminate.
    - vm_compute. discriminate.
    - vm_compute. reflexivity. }
  assert (Hgap : in_ulps (Z.pos 7916483719987199) (-43)
                 < in_ulps (Z.pos 7916483719987200) (-43))
    by (vm_compute; reflexivity).
  destruct (SFsub_below _ _ _ _ B900 Hsum Hgap) as (m' & e' & Hsub & Hb' & Hv').
  rewrite !FloatAxioms.ltb_spec, !FloatAxioms.leb_spec, FloatAxioms.sub_spec, E900.
  change (Prim2SF 0) with (S754_zero false).
  unfold SF64sub. rewrite Hsub.
  repeat split.
  - destruct (Prim2SF (kf + f)) as [s|s| |[] m e];
      cbn [nonneg_below] in Hsum; try contradiction; reflexivity.
  - destruct (Prim2SF (kf + f)) as [s|s| |[] m e];
      cbn [nonneg_below] in Hsum; try contradiction; try reflexivity.
    destruct Hsum as [Hbs Hvs].
    unfold SFltb. rewrite SFcompare_in_ulps by assumption.
    replace (in_ulps (Z.pos m) e ?= in_ulps (Z.pos 7916483719987200) (-43))
      with Lt; [reflexivity|].
    symmetry. apply Z.compare_lt_iff. lia.
  - unfold SFleb. rewrite SFcompare_in_ulps by assumption.
    destruct (Z.compare_spec (in_ulps (Z.pos m') e')
                (in_ulps (Z.pos 7916483719987200) (-43)));
      try reflexivity; lia.
Qed.

Lemma seconds_to_next_quarter_bounds (now : datetime) :
  datetime_ok now = true ->
  (0 <=? elapsed now)%float = true /\ (elapsed now <? 900)%float = true
  /\ (0 <? seconds_to_next_quarter now)%float = true
  /\ (seconds_to_next_quarter now <=? 900)%float = true.
Proof.
  intros Hok. destruct (datetime_ok_fields now Hok) as (Hm & Hs & Hus).
  pose proof (Z.mod_pos_bound (minute now) 15 ltac:(lia)) as Hq.
  pose proof (wholes_in_range (minute now mod 15 * 60 + second now)
                ltac:(lia)) as Hk.
  pose proof (fractions_in_range (microsecond now) Hus) as Hf.
  unfold whole_in_range in Hk. unfold fraction_in_range in Hf.
  apply andb_true_iff in Hk as [Hk0 Hk1].
  apply andb_true_iff in Hf as [Hf0 Hf1].
  unfold seconds_to_next_quarter, elapsed.
  change (float_of_int (15 * 60)) with 900%float.
  apply quarter_bounds; assumption.
Qed.

(** ** The durations handed to [time.sleep] *)

Section KeepsSleepsOk.

Context {A B : Type}.

Lemma keeps_ret (a : A) : keeps_sleeps_ok (ret a).
Proof. intros w H. exact H. Qed.

Lemma keeps_raise (e : exn) : keeps_sleeps_ok (@raise A e).
Proof. intros w H. exact H. Qed.

Lemma keeps_blocked : keeps_sleeps_ok (@blocked A).
Proof. intros w H. exact H. Qed.

Lemma keeps_lift (r : Result A) : keeps_sleeps_ok (lift r).
Proof. intros w H. exact H. Qed.

Lemma keeps_call (r : Reply A) : keeps_sleeps_ok (call r).
Proof. destruct r; intros w H; exact H. Qed.

Lemma keeps_modify (f : World -> World) :
  (forall w, slept (f w) = slept w) -> keeps_sleeps_ok (modify f).
Proof. intros Hf w H. unfold sleeps_ok, modify. cbn. rewrite Hf. exact H. Qed.

Lemma keeps_bind (m : M A) (k : A -> M B) :
  keeps_sleeps_ok m -> (forall a, keeps_sleeps_ok (k a)) ->
  keeps_sleeps_ok (bind m k).
Proof.
  intros Hm Hk w H. unfold bind. specialize (Hm w H).
  destruct (m w) as [[a|e|] w']; cbn [snd] in *; try assumption.
  apply Hk. exact Hm.
Qed.

Lemma keeps_try_except (body : M A) (c : exn -> bool) (handler : exn -> M A) :
  keeps_sleeps_ok body -> (forall e, keeps_sleeps_ok (handler e)) ->
  keeps_sleeps_ok (try_except body c handler).
Proof.
  intros Hb Hh w H. unfold try_except. specialize (Hb w H).
  destruct (body w) as [[a|e|] w']; cbn [snd] in *; try assumption.
  destruct (c e); [apply Hh|]; assumption.
Qed.

Lemma keeps_try_finally (body : M A) (final : M unit) :
  keeps_sleeps_ok body -> keeps_sleeps_ok final ->
  keeps_sleeps_ok (try_finally body final).
Proof.
  intros Hb Hf w H. unfold try_finally. specialize (Hb w H).
  destruct (body w) as [[a|e|] w']; cbn [snd] in *; try assumption;
    specialize (Hf w' Hb);
    destruct (final w') as [[[]|e'|] w'']; assumption.
Qed.

End KeepsSleepsOk.

Lemma keeps_sleep (d : float) (r : Reply unit) :
  duration_ok d -> keeps_sleeps_ok (sleep d r).
Proof.
  intros Hd. unfold sleep. apply keeps_bind; [|intros _; apply keeps_call].
  intros w H. unfold sleeps_ok, modify. cbn.
  apply Forall_app. split; [exact H|]. constructor; [exact Hd|constructor].
Qed.

Lemma duration_one : duration_ok 1.
Proof. split; reflexivity. Qed.

Ltac keeps_step :=
  first [ apply keeps_sleep
        | apply keeps_bind; [|intros ?]
        | apply keeps_try_except; [|intros ?]
        | apply keeps_try_finally
        | apply keeps_modify; intros ?; reflexivity
        | apply keeps_call | apply keeps_ret | apply keeps_raise
        | apply keeps_lift | apply keeps_blocked
        | exact duration_one ].

Lemma keeps_log_temperature (t : Tick) : keeps_sleeps_ok (log_temperature t).
Proof.
  unfold log_temperature, read_temperature_f, ser_write, ser_read,
    with_open_append, file_write, requests_post, print.
  repeat keeps_step.
Qed.

Lemma keeps_sampling_loop (rs : list Round) :
  Forall (fun r => datetime_ok (now_sched r) = true) rs ->
  keeps_sleeps_ok (sampling_loop rs).
Proof.
  induction 1 as [|r rest Hr _ IH]; cbn [sampling_loop].
  - apply keeps_blocked.
  - apply keeps_bind; [unfold print; keeps_step|intros _].
    apply keeps_bind; [|intros _].
    + apply keeps_sleep.
      destruct (seconds_to_next_quarter_bounds _ Hr) as (_ & _ & H1 & H2).
      split; assumption.
    + apply keeps_bind; [apply keeps_log_temperature|intros _; exact IH].
Qed.

Lemma keeps_main (h : Host) (s : Session) :
  Forall (fun r => datetime_ok (now_sched r) = true) (rounds s) ->
  keeps_sleeps_ok (main h s).
Proof.
  intros Hs.
  assert (Hprint : forall p, keeps_sleeps_ok (print p))
    by (intros p; unfold print; keeps_step).
  assert (Hall : forall ps, keeps_sleeps_ok (print_all ps)).
  { induction ps as [|p ps IH]; cbn [print_all].
    - apply keeps_ret.
    - apply keeps_bind; [apply Hprint|intros _; exact IH]. }
  unfold main.
  apply keeps_bind; [|intros _].
  { apply keeps_try_except; [|intros e].
    - unfold serial_Serial. repeat keeps_step.
    - apply keeps_bind; [apply Hprint|intros _].
      apply keeps_bind; [apply Hall|intros _; apply keeps_raise]. }
  apply keeps_bind; [apply Hprint|intros _].
  apply keeps_bind; [apply Hprint|intros _].
  apply keeps_try_finally; [|unfold ser_close; keeps_step].
  apply keeps_try_except; [|intros _; apply Hprint].
  unfold running.
  apply keeps_bind; [apply keeps_log_temperature|intros _].
  apply keeps_sampling_loop. exact Hs.
Qed.

(** C10: for every clock value the elapsed part of the quarter is in
    [0, 900) and the scheduler's result is in (0, 900], in binary64 as the
    program computes them; so every duration the program hands to
    [time.sleep] is positive and at most 900. *)
Theorem sleep_duration_in_range :
  (forall now, datetime_ok now = true ->
     (0 <=? elapsed now)%float = true /\ (elapsed now <? 900)%float = true
     /\ (0 <? seconds_to_next_quarter now)%float = true
     /\ (seconds_to_next_quarter now <=? 900)%float = true)
  /\ (forall h s,
        Forall (fun r => datetime_ok (now_sched r) = true) (rounds s) ->
        Forall (fun d => (0 <? d)%float = true /\ (d <=? 900)%float = true)
          (slept (snd (run h s)))).
Proof.
  split.
  - exact seconds_to_next_quarter_bounds.
  - intros h s Hs. apply (keeps_main h s Hs initial_world). constructor.
Qed.

Lemma sleep_duration_in_range_witness :
  (0 <? seconds_to_next_quarter (mk_datetime 2024 3 9 10 14 59 999999))%float
  = true
  /\ Forall (fun d => (0 <? d)%float = true /\ (d <=? 900)%float = true)
       (slept (snd (run linux interrupted_session))).
Proof.
  split.
  - exact (proj1 (proj2 (proj2 (proj1 sleep_duration_in_range
                                  (mk_datetime 2024 3 9 10 14 59 999999)
                                  eq_refl)))).
  - apply (proj2 sleep_duration_in_range linux interrupted_session).
    repeat constructor.
Defined.

(** * Further properties of the code *)

(** ** The decoder reads two bytes *)

Lemma int16_unique (v1 v2 u : Z) :
  -32768 <= v1 <= 32767 -> -32768 <= v2 <= 32767 ->
  v1 mod 65536 = u -> v2 mod 65536 = u -> v1 = v2.
Proof.
  intros H1 H2 E1 E2.
  pose proof (Z.div_mod v1 65536 ltac:(lia)) as D1.
  pose proof (Z.div_mod v2 65536 ltac:(lia)) as D2.
  pose proof (Z.mod_pos_bound v1 65536 ltac:(lia)).
  pose proof (Z.mod_pos_bound v2 65536 ltac:(lia)).
  lia.
Qed.

(** X1: the decoded value depends on bytes 9 and 10 only; the header, the
    rest of the packet and whatever follows it are ignored, so a reply with
    trailing bytes decodes as the packet alone. *)
Theorem decode_packet_reads_bytes_9_10 (d1 d2 : list byte) :
  (18 <= List.length d1)%nat -> (18 <= List.length d2)%nat ->
  nth_error d1 9 = nth_error d2 9 -> nth_error d1 10 = nth_error d2 10 ->
  decode_packet d1 = decode_packet d2.
Proof.
  intros L1 L2 E9 E10.
  destruct (decode_packet_long d1 L1) as (lo1 & hi1 & v1 & A1 & B1 & R1 & M1 & D1).
  destruct (decode_packet_long d2 L2) as (lo2 & hi2 & v2 & A2 & B2 & R2 & M2 & D2).
  assert (lo1 = lo2) by congruence. assert (hi1 = hi2) by congruence.
  subst lo2 hi2.
  rewrite D1, D2. do 3 f_equal.
  exact (int16_unique v1 v2 _ R1 R2 M1 M2).
Qed.

Lemma decode_packet_reads_bytes_9_10_witness :
  decode_packet (packet_800 ++ [xff; xff; x0d])
  = decode_packet (x52 :: List.tl packet_800).
Proof.
  apply decode_packet_reads_bytes_9_10; try reflexivity; simpl; lia.
Defined.

(** X2: what [ser.read(64)] keeps of a reply that holds a whole packet
    decodes as the packet does: trailing bytes are tolerated. *)
Theorem trailing_bytes_tolerated (data extra : list byte) :
  (18 <= List.length data)%nat ->
  decode_packet (firstn 64 (data ++ extra)) = decode_packet data.
Proof.
  intros L.
  assert (Hn : forall i, (i < 18)%nat ->
            nth_error (firstn 64 (data ++ extra)) i = nth_error data i).
  { intros i Hi. rewrite nth_error_firstn.
    destruct (Nat.ltb_spec i 64); [|lia].
    apply nth_error_app1. lia. }
  apply decode_packet_reads_bytes_9_10; try assumption.
  - rewrite length_firstn, length_app. lia.
  - apply Hn. lia.
  - apply Hn. lia.
Qed.

Lemma trailing_bytes_tolerated_witness :
  decode_packet (firstn 64 (packet_800 ++ packet_800 ++ packet_800 ++ packet_800))
  = Return (Some 122%float).
Proof.
  rewrite (trailing_bytes_tolerated packet_800
             (packet_800 ++ packet_800 ++ packet_800)) by (simpl; lia).
  reflexivity.
Defined.

(** ** The range and the sign of the decoded temperature *)

Lemma raw_readings_checked (v : Z) :
  -32768 <= v <= 32767 -> raw_reading_checks v = true.
Proof.
  intros Hv.
  assert (H : all_from (Z.to_nat 65536) (-32768) raw_reading_checks = true)
    by (vm_cast_no_check (eq_refl true)).
  apply (all_from_spec _ _ _ H). lia.
Qed.

(** X3: every packet decodes to a finite temperature between -3654.4 and
    3718.2875 degrees Fahrenheit, the readings of the raw values -32768 and
    32767; the decoder never yields an infinity or a NaN. *)
Theorem decoded_temperature_range (data : list byte) (x : float) :
  decode_packet data = Return (Some x) ->
  (fahrenheit_of_raw (-32768) <=? x)%float = true
  /\ (x <=? fahrenheit_of_raw 32767)%float = true
  /\ (-3655 <? x)%float = true /\ (x <? 3719)%float = true.
Proof.
  intros Hdec.
  destruct (Nat.lt_ge_cases (List.length data) 18) as [Hlt|Hge].
  { rewrite (decode_packet_short data Hlt) in Hdec. discriminate. }
  destruct (decode_packet_long data Hge) as (_ & _ & v & _ & _ & Hv & _ & Hd).
  rewrite Hd in Hdec. injection Hdec as <-.
  pose proof (raw_readings_checked v Hv) as Hc. unfold raw_reading_checks in Hc.
  cbv zeta in Hc. rewrite !andb_true_iff in Hc.
  destruct Hc as (((((Hlo & Hhi) & Hb1) & Hb2) & _) & _).
  repeat split; assumption.
Qed.

Lemma decoded_temperature_range_witness :
  (-3655 <? 122)%float = true /\ (122 <? 3719)%float = true.
Proof.
  destruct (decoded_temperature_range packet_800 122 eq_refl)
    as (_ & _ & H1 & H2).
  split; assumption.
Defined.

(** X4: the decoded temperature is below 32.0 (below freezing) exactly when
    the sign bit of the raw value, the top bit of byte 10, is set, and it is
    32.0 exactly when bytes 9 and 10 are both zero. *)
Theorem below_freezing_iff_sign_bit (data : list byte) (lo hi : byte) (x : float) :
  nth_error data 9 = Some lo -> nth_error data 10 = Some hi ->
  decode_packet data = Return (Some x) ->
  ((x <? 32)%float = true <-> 128 <= byte_value hi)
  /\ ((x =? 32)%float = true <-> byte_value lo = 0 /\ byte_value hi = 0).
Proof.
  intros Hlo Hhi Hdec.
  destruct (Nat.lt_ge_cases (List.length data) 18) as [Hlt|Hge].
  { rewrite (decode_packet_short data Hlt) in Hdec. discriminate. }
  destruct (decode_packet_long data Hge)
    as (lo' & hi' & v & Hlo' & Hhi' & Hv & Hmod & Hd).
  assert (lo' = lo) by congruence. assert (hi' = hi) by congruence.
  subst lo' hi'.
  rewrite Hd in Hdec. injection Hdec as <-.
  pose proof (raw_readings_checked v Hv) as Hc. unfold raw_reading_checks in Hc.
  cbv zeta in Hc. rewrite !andb_true_iff in Hc.
  destruct Hc as ((_ & Hsign) & Hzero).
  apply Bool.eqb_prop in Hsign. apply Bool.eqb_prop in Hzero.
  rewrite Hsign, Hzero, Z.ltb_lt, Z.eqb_eq.
  pose proof (byte_value_range lo). pose proof (byte_value_range hi).
  pose proof (Z.div_mod v 65536 ltac:(lia)) as D.
  pose proof (Z.mod_pos_bound v 65536 ltac:(lia)).
  split; lia.
Qed.

Lemma below_freezing_iff_sign_bit_witness :
  (122 <? 32)%float = true <-> 128 <= byte_value x03.
Proof.
  exact (proj1 (below_freezing_iff_sign_bit packet_800 x20 x03 122
                  eq_refl eq_refl eq_refl)).
Defined.

(** ** Invariants of the state *)

Lemma preserves_ret (P : World -> Prop) (A : Type) (a : A) :
  preserves P (ret a).
Proof. intros w H. exact H. Qed.

Lemma preserves_raise (P : World -> Prop) (A : Type) (e : exn) :
  preserves P (@raise A e).
Proof. intros w H. exact H. Qed.

Lemma preserves_blocked (P : World -> Prop) (A : Type) :
  preserves P (@blocked A).
Proof. intros w H. exact H. Qed.

Lemma preserves_lift (P : World -> Prop) (A : Type) (r : Result A) :
  preserves P (lift r).
Proof. intros w H. exact H. Qed.

Lemma preserves_call (P : World -> Prop) (A : Type) (r : Reply A) :
  preserves P (call r).
Proof. destruct r; intros w H; exact H. Qed.

Lemma preserves_modify (P : World -> Prop) (f : World -> World) :
  (forall w, P w -> P (f w)) -> preserves P (modify f).
Proof. intros Hf w H. apply Hf. exact H. Qed.

Lemma preserves_bind (P : World -> Prop) (A B : Type) (m : M A) (k : A -> M B) :
  preserves P m -> (forall a, preserves P (k a)) -> preserves P (bind m k).
Proof.
  intros Hm Hk w H. unfold bind. specialize (Hm w H).
  destruct (m w) as [[a|e|] w']; cbn [snd] in *; try assumption.
  apply Hk. exact Hm.
Qed.

Lemma preserves_try_except (P : World -> Prop) (A : Type) (body : M A)
    (c : exn -> bool) (handler : exn -> M A) :
  preserves P body -> (forall e, preserves P (handler e)) ->
  preserves P (try_except body c handler).
Proof.
  intros Hb Hh w H. unfold try_except. specialize (Hb w H).
  destruct (body w) as [[a|e|] w']; cbn [snd] in *; try assumption.
  destruct (c e); [apply Hh|]; assumption.
Qed.

Lemma preserves_try_finally (P : World -> Prop) (A : Type) (body : M A)
    (final : M unit) :
  preserves P body -> preserves P final ->
  preserves P (try_finally body final).
Proof.
  intros Hb Hf w H. unfold try_finally. specialize (Hb w H).
  destruct (body w) as [[a|e|] w']; cbn [snd] in *; try assumption;
    specialize (Hf w' Hb);
    destruct (final w') as [[[]|e'|] w'']; assumption.
Qed.

(** Takes a computation apart down to its [modify] steps. *)
Ltac preserves_step :=
  first [ apply preserves_bind; [|intros ?]
        | apply preserves_try_except; [|intros ?]
        | apply preserves_try_finally
        | apply preserves_call | apply preserves_ret | apply preserves_raise
        | apply preserves_lift | apply preserves_blocked
        | apply preserves_modify; intros ? ? ].

(** An invariant that the console and the sleep calls cannot break, and that
    every tick keeps, is kept by the sampling loop and by the Running
    phase. *)
Lemma preserves_sampling_loop (P : World -> Prop) :
  (forall p, preserves P (print p)) ->
  (forall d r, preserves P (sleep d r)) ->
  (forall t, preserves P (log_temperature t)) ->
  forall rs, preserves P (sampling_loop rs).
Proof.
  intros Hprint Hsleep Hlog rs.
  induction rs as [|r rest IH]; cbn [sampling_loop].
  - apply preserves_blocked.
  - apply preserves_bind; [apply Hprint|intros _].
    apply preserves_bind; [apply Hsleep|intros _].
    apply preserves_bind; [apply Hlog|intros _; exact IH].
Qed.

Lemma preserves_running (P : World -> Prop) :
  (forall p, preserves P (print p)) ->
  (forall d r, preserves P (sleep d r)) ->
  (forall t, preserves P (log_temperature t)) ->
  forall s, preserves P (running s).
Proof.
  intros Hprint Hsleep Hlog s. unfold running.
  apply preserves_bind; [apply Hlog|intros _].
  apply preserves_sampling_loop; assumption.
Qed.

Lemma preserves_print_all (P : World -> Prop) :
  (forall p, preserves P (print p)) ->
  forall ps, preserves P (print_all ps).
Proof.
  intros Hprint ps. induction ps as [|p ps IH]; cbn [print_all].
  - apply preserves_ret.
  - apply preserves_bind; [apply Hprint|intros _; exact IH].
Qed.

Lemma preserves_main (P : World -> Prop) :
  (forall p, preserves P (print p)) ->
  (forall d r, preserves P (sleep d r)) ->
  (forall t, preserves P (log_temperature t)) ->
  (forall r, preserves P (serial_Serial r)) ->
  preserves P ser_close ->
  forall h s, preserves P (main h s).
Proof.
  intros Hprint Hsleep Hlog Hopen Hclose h s. unfold main.
  apply preserves_bind; [|intros _].
  { apply preserves_try_except; [apply Hopen|intros e].
    apply preserves_bind; [apply Hprint|intros _].
    apply preserves_bind; [|intros _; apply preserves_raise].
    apply preserves_print_all. exact Hprint. }
  apply preserves_bind; [apply Hprint|intros _].
  apply preserves_bind; [apply Hprint|intros _].
  apply preserves_try_finally; [|exact Hclose].
  apply preserves_try_except; [|intros _; apply Hprint].
  apply preserves_running; assumption.
Qed.

(** ** What one call of [log_temperature] changes *)

Lemma string_append_assoc (a b c : string) : (a ++ b) ++ c = a ++ b ++ c.
Proof. induction a as [|ch a IH]; cbn; [reflexivity|]. rewrite IH. reflexivity. Qed.

Lemma string_append_nil_r (a : string) : a ++ "" = a.
Proof. induction a as [|ch a IH]; cbn; [reflexivity|]. rewrite IH. reflexivity. Qed.

(** Without a reading, [log_temperature] does not return, and it leaves the
    log file, the posts, the file handles and the connection as the device
    exchange left them. *)
Lemma log_temperature_absent (t : Tick) (w : World) :
  (forall x, tick_reading t <> Return (Some x)) ->
  (forall u, log_outcome t w <> Return u)
  /\ log_file (log_world t w) = log_file w
  /\ posts (log_world t w) = posts w
  /\ open_handles (log_world t w) = open_handles w
  /\ ser_is_open (log_world t w) = ser_is_open w.
Proof.
  intros Hno.
  destruct (read_temperature_f_frame t w) as (Hr & _ & Hl & Ho & Hp & Hs).
  assert (Heq : exists r w',
    log_temperature t w = (r, w') /\ (forall u, r <> Return u)
    /\ log_file w' = log_file w /\ posts w' = posts w
    /\ open_handles w' = open_handles w /\ ser_is_open w' = ser_is_open w).
  { unfold log_temperature.
    unfold bind at 1. unfold try_except at 1.
    destruct (read_temperature_f t w) as [r w1]. cbn [fst snd] in *.
    rewrite Hr.
    destruct (tick_reading t) as [[x|]|e|].
    - exfalso. exact (Hno x eq_refl).
    - eexists; eexists. split; [reflexivity|].
      repeat split; try assumption. discriminate.
    - destruct (is_SerialException e).
      + eexists; eexists. split; [reflexivity|]. cbn.
        repeat split; try assumption. discriminate.
      + eexists; eexists. split; [reflexivity|].
        repeat split; try assumption. discriminate.
    - eexists; eexists. split; [reflexivity|].
      repeat split; try assumption. discriminate. }
  destruct Heq as (r & w' & Heq & Hnr & Hl' & Hp' & Ho' & Hs').
  unfold log_outcome, log_world. rewrite Heq. cbn [fst snd].
  repeat split; assumption.
Qed.

(** Every call either leaves the log file and the posts alone, or appends
    one line and hands that line to [requests.post]; it never leaves a file
    open and never touches the connection. *)
Lemma log_temperature_effect (t : Tick) (w : World) :
  open_handles (log_world t w) = open_handles w
  /\ ser_is_open (log_world t w) = ser_is_open w
  /\ ((log_file (log_world t w) = log_file w
       /\ posts (log_world t w) = posts w)
      \/ exists x,
           tick_reading t = Return (Some x) /\ append_succeeds t
           /\ log_file (log_world t w) = log_file w ++ line_of t x ++ newline
           /\ posts (log_world t w)
              = (posts w ++ [mk_Post APPS_SCRIPT_URL (line_of t x) 10])%list).
Proof.
  destruct (tick_reading t) as [[x|]|e|] eqn:Hx;
    try (destruct (log_temperature_absent t w) as (_ & Hl & Hp & Ho & Hs);
         [intros x'; rewrite Hx; discriminate|];
         repeat split; try assumption; left; split; assumption).
  destruct (read_temperature_f_frame t w) as (_ & _ & Hl & Ho & Hp & Hs).
  assert (Hfails : forall e, append_fails t e ->
            open_handles (log_world t w) = open_handles w
            /\ ser_is_open (log_world t w) = ser_is_open w
            /\ log_file (log_world t w) = log_file w
            /\ posts (log_world t w) = posts w).
  { intros e Hf. unfold log_world.
    rewrite (log_temperature_append_fails t w x e Hx Hf).
    unfold printed. cbn [fst snd log_file posts open_handles ser_is_open].
    repeat split; assumption. }
  destruct (on_open t) as [[]|e] eqn:Hopen.
  - destruct (on_file_write t) as [[]|e] eqn:Hwrite.
    + assert (Happ : append_succeeds t) by (split; assumption).
      unfold log_world.
      rewrite (log_temperature_append_succeeds t w x Hx Happ).
      destruct (on_post t) as [[]|e]; [|destruct (is_Exception e)];
        unfold print, modify;
        cbn [fst snd log_file posts open_handles ser_is_open];
        rewrite Hl, Hp; repeat split; try assumption;
        right; exists x; repeat split; assumption.
    + destruct (Hfails e (or_intror (conj Hopen Hwrite)))
        as (H1 & H2 & H3 & H4).
      repeat split; try assumption. left; split; assumption.
  - destruct (Hfails e (or_introl Hopen)) as (H1 & H2 & H3 & H4).
    repeat split; try assumption. left; split; assumption.
Qed.

Lemma tick_ok_returns (t : Tick) (w : World) :
  tick_ok t ->
  log_outcome t w = Return tt
  /\ exists x,
       tick_reading t = Return (Some x)
       /\ log_file (log_world t w) = log_file w ++ line_of t x ++ newline
       /\ posts (log_world t w)
          = (posts w ++ [mk_Post APPS_SCRIPT_URL (line_of t x) 10])%list.
Proof.
  intros ([x Hx] & Happ & Hpost).
  destruct (read_temperature_f_frame t w) as (_ & _ & Hl & _ & Hp & _).
  unfold log_outcome, log_world.
  rewrite (log_temperature_append_succeeds t w x Hx Happ).
  destruct Hpost as [-> | (e & -> & ->)]; unfold print, modify;
    cbn [fst snd log_file posts]; rewrite Hl, Hp;
    (split; [reflexivity|]); exists x; repeat split; assumption.
Qed.

Lemma returns_tick_ok (t : Tick) (w : World) :
  log_outcome t w = Return tt -> tick_ok t.
Proof.
  intros Hout.
  destruct (tick_reading t) as [[x|]|e|] eqn:Hx;
    try (destruct (log_temperature_absent t w) as (Hno & _);
         [intros x'; rewrite Hx; discriminate|];
         exfalso; exact (Hno tt Hout)).
  assert (Hfails : forall e, ~ append_fails t e).
  { intros e Hf. unfold log_outcome in Hout.
    rewrite (log_temperature_append_fails t w x e Hx Hf) in Hout.
    discriminate. }
  destruct (on_open t) as [[]|e] eqn:Hopen;
    [|exfalso; exact (Hfails e (or_introl Hopen))].
  destruct (on_file_write t) as [[]|e] eqn:Hwrite;
    [|exfalso; exact (Hfails e (or_intror (conj Hopen Hwrite)))].
  assert (Happ : append_succeeds t) by (split; assumption).
  split; [exists x; exact Hx|]. split; [exact Happ|].
  unfold log_outcome in Hout.
  rewrite (log_temperature_append_succeeds t w x Hx Happ) in Hout.
  destruct (on_post t) as [[]|e]; [left; reflexivity|right].
  exists e. split; [reflexivity|].
  destruct (is_Exception e); [reflexivity|discriminate].
Qed.

(** ** Invariants of a run *)

(** The steps that touch only the console, the sleep record or the
    connection flag keep any property of the other fields. *)
Ltac untouched :=
  intros; first [ apply preserves_modify; intros ? H; exact H
                | unfold print, sleep, serial_Serial, ser_close;
                  repeat preserves_step; assumption ].

Lemma log_temperature_only_read_commands (t : Tick) :
  preserves only_read_commands (log_temperature t).
Proof.
  unfold log_temperature, read_temperature_f, ser_write, ser_read, sleep,
    with_open_append, file_write, requests_post, print.
  repeat preserves_step; try assumption.
  unfold only_read_commands in *. cbn. apply Forall_app. split; [assumption|].
  constructor; [reflexivity|constructor].
Qed.

(** X6: the only bytes the program ever writes to the device are the
    command [R\r]. *)
Theorem device_gets_only_read_commands (h : Host) (s : Session) :
  Forall (eq READ_COMMAND) (ser_sent (snd (run h s))).
Proof.
  apply (preserves_main only_read_commands); try untouched.
  - apply log_temperature_only_read_commands.
  - constructor.
Qed.

Lemma log_temperature_extends_log (old : string) (t : Tick) :
  preserves (extends_log old) (log_temperature t).
Proof.
  intros w [suffix Hw].
  change (extends_log old (log_world t w)). unfold extends_log.
  destruct (log_temperature_effect t w)
    as (_ & _ & [[Hl _] | (x & _ & _ & Hl & _)]); rewrite Hl.
  - exists suffix. exact Hw.
  - exists (suffix ++ line_of t x ++ newline).
    rewrite Hw. apply string_append_assoc.
Qed.

(** X7: the log file is only appended to: whatever it holds when a tick,
    the sampling loop or the whole script starts is still there, unchanged
    and in front, afterwards. *)
Theorem log_file_only_grows :
  (forall t w, exists suffix,
     log_file (log_world t w) = log_file w ++ suffix)
  /\ (forall rs w, exists suffix,
        log_file (snd (sampling_loop rs w)) = log_file w ++ suffix)
  /\ (forall h s w, exists suffix,
        log_file (snd (main h s w)) = log_file w ++ suffix).
Proof.
  assert (Hstart : forall w, extends_log (log_file w) w)
    by (intros w; exists ""; symmetry; apply string_append_nil_r).
  split; [|split].
  - intros t w.
    apply (log_temperature_extends_log (log_file w) t w (Hstart w)).
  - intros rs w.
    apply (preserves_sampling_loop (extends_log (log_file w))); try untouched.
    + apply log_temperature_extends_log.
    + apply Hstart.
  - intros h s w.
    apply (preserves_main (extends_log (log_file w))); try untouched.
    + apply log_temperature_extends_log.
    + apply Hstart.
Qed.

Lemma log_temperature_open_handles (n : nat) (t : Tick) :
  preserves (fun w => open_handles w = n) (log_temperature t).
Proof.
  intros w Hw. change (open_handles (log_world t w) = n).
  destruct (log_temperature_effect t w) as (Ho & _). congruence.
Qed.

(** X8: no file object is left open: after a run, ended or still going,
    every file the script opened has been closed. *)
Theorem no_file_left_open (h : Host) (s : Session) :
  open_handles (snd (run h s)) = 0%nat.
Proof.
  apply (preserves_main (fun w => open_handles w = 0%nat)); try untouched.
  - apply log_temperature_open_handles.
  - reflexivity.
Qed.

(** ** Errors that are not contained *)

(** X11: around the device read only [serial.SerialException] is caught.
    Any other exception raised during the exchange leaves [log_temperature]
    as it is, with no diagnostic printed and nothing appended or
    submitted. *)
Theorem other_read_errors_propagate (t : Tick) (e : exn) (w : World) :
  tick_reading t = Raise e -> is_SerialException e = false ->
  log_outcome t w = Raise e
  /\ console (log_world t w) = console w
  /\ log_file (log_world t w) = log_file w
  /\ posts (log_world t w) = posts w.
Proof.
  intros Hx He.
  destruct (read_temperature_f_frame t w) as (Hr & Hc & Hl & _ & Hp & _).
  assert (Heq : log_temperature t w = (Raise e, snd (read_temperature_f t w))).
  { unfold log_temperature. unfold bind at 1. unfold try_except at 1.
    destruct (read_temperature_f t w) as [r w1]. cbn [fst snd] in *.
    rewrite Hr, Hx, He. reflexivity. }
  unfold log_outcome, log_world. rewrite Heq. cbn [fst snd].
  repeat split; assumption.
Qed.

Lemma other_read_errors_propagate_witness :
  log_outcome interrupted_read_tick initial_world = Raise KeyboardInterrupt.
Proof.
  exact (proj1 (other_read_errors_propagate interrupted_read_tick
                  KeyboardInterrupt initial_world eq_refl eq_refl)).
Defined.

(** ** The loop as long as nothing fails *)

Lemma tick_reading_not_blocked (t : Tick) : tick_reading t <> Blocked.
Proof.
  destruct t as [r1 r2 r3 r4 now r5 r6 r7].
  unfold tick_reading, read_temperature_f, ser_write, sleep, ser_read.
  reply r1; reply r2; reply r3; destruct r4 as [data|e4];
    cbn -[decode_packet firstn]; try discriminate.
  generalize (firstn 64 data). intros got.
  destruct (Nat.lt_ge_cases (List.length got) 18) as [Hlt|Hge].
  - rewrite (decode_packet_short got Hlt). discriminate.
  - destruct (decode_packet_long got Hge) as (lo & hi & v & _ & _ & _ & _ & ->).
    discriminate.
Qed.

Lemma log_outcome_not_blocked (t : Tick) (w : World) :
  log_outcome t w <> Blocked.
Proof.
  destruct (tick_reading t) as [[x|]|e|] eqn:Hx.
  - destruct (on_open t) as [[]|e] eqn:Hopen.
    + destruct (on_file_write t) as [[]|e] eqn:Hwrite.
      * unfold log_outcome.
        rewrite (log_temperature_append_succeeds t w x Hx (conj Hopen Hwrite)).
        destruct (on_post t) as [[]|e]; [|destruct (is_Exception e)]; cbn;
          discriminate.
      * unfold log_outcome.
        rewrite (log_temperature_append_fails t w x e Hx
                   (or_intror (conj Hopen Hwrite))).
        discriminate.
    + unfold log_outcome.
      rewrite (log_temperature_append_fails t w x e Hx (or_introl Hopen)).
      discriminate.
  - destruct (read_temperature_f_frame t w) as (Hr & _).
    unfold log_outcome, log_temperature.
    unfold bind at 1. unfold try_except at 1.
    destruct (read_temperature_f t w) as [r w1]. cbn [fst snd] in *.
    rewrite Hr, Hx. cbn. discriminate.
  - destruct (read_temperature_f_frame t w) as (Hr & _).
    unfold log_outcome, log_temperature.
    unfold bind at 1. unfold try_except at 1.
    destruct (read_temperature_f t w) as [r w1]. cbn [fst snd] in *.
    rewrite Hr, Hx. destruct (is_SerialException e); cbn; discriminate.
  - exfalso. exact (tick_reading_not_blocked t Hx).
Qed.

(** One turn of the loop. *)
Lemma sampling_loop_cons (r : Round) (rest : list Round) (w : World) :
  sampling_loop (r :: rest) w
  = match on_sleep r with
    | Raises e => (Raise e, before_tick r w)
    | Returns _ =>
        match log_temperature (tick r) (before_tick r w) with
        | (Return _, w') => sampling_loop rest w'
        | (Raise e, w') => (Raise e, w')
        | (Blocked, w') => (Blocked, w')
        end
    end.
Proof.
  cbn [sampling_loop]. unfold bind at 1, print at 1, modify at 1.
  unfold bind at 1, sleep, bind at 1, modify, call, before_tick.
  destruct (on_sleep r) as [[]|e]; cbn [ret raise console log_file
    open_handles posts ser_is_open ser_sent slept]; [|reflexivity].
  unfold bind. reflexivity.
Qed.

Lemma reading_line_present (t : Tick) (x : float) :
  tick_reading t = Return (Some x) -> reading_line t = line_of t x.
Proof. intros Hx. unfold reading_line. rewrite Hx. reflexivity. Qed.

Lemma sampling_loop_blocked_iff (rs : list Round) :
  forall w, fst (sampling_loop rs w) = Blocked <-> Forall round_ok rs.
Proof.
  induction rs as [|r rest IH]; intros w.
  - split; [constructor|reflexivity].
  - rewrite sampling_loop_cons.
    destruct (on_sleep r) as [[]|e] eqn:Hsleep.
    + pose proof (log_outcome_not_blocked (tick r) (before_tick r w)) as Hnb.
      pose proof (returns_tick_ok (tick r) (before_tick r w)) as Hret.
      pose proof (tick_ok_returns (tick r) (before_tick r w)) as Hok.
      unfold log_outcome in Hnb, Hret, Hok.
      destruct (log_temperature (tick r) (before_tick r w)) as [[[]|e|] w'];
        cbn [fst] in *.
      * rewrite IH. split.
        -- intros Hrest. constructor; [|exact Hrest].
           split; [exact Hsleep|exact (Hret eq_refl)].
        -- intros Hall. inversion Hall; assumption.
      * split; [discriminate|]. intros Hall. inversion Hall as [|? ? [_ Ht] _].
        destruct (Hok Ht) as [Habs _]. discriminate Habs.
      * exfalso. exact (Hnb eq_refl).
    + split; [discriminate|]. intros Hall. inversion Hall as [|? ? [Hs _] _].
      rewrite Hsleep in Hs. discriminate Hs.
Qed.

Lemma sampling_loop_steady (rs : list Round) :
  Forall round_ok rs ->
  forall w,
    log_file (snd (sampling_loop rs w))
    = log_file w ++ lines_of (map tick rs)
    /\ map post_data (posts (snd (sampling_loop rs w)))
       = (map post_data (posts w) ++ map reading_line (map tick rs))%list.
Proof.
  induction 1 as [|r rest [Hsleep Ht] _ IH]; intros w.
  - cbn. rewrite string_append_nil_r, app_nil_r. split; reflexivity.
  - rewrite sampling_loop_cons, Hsleep.
    destruct (tick_ok_returns (tick r) (before_tick r w) Ht)
      as (Hout & x & Hx & Hl & Hp).
    unfold log_outcome, log_world in Hout, Hl, Hp.
    destruct (log_temperature (tick r) (before_tick r w)) as [res w'].
    cbn [fst snd] in Hout, Hl, Hp. subst res.
    destruct (IH w') as [IHl IHp]. rewrite IHl, IHp, Hl, Hp.
    cbn [map lines_of before_tick log_file posts].
    rewrite (reading_line_present (tick r) x Hx).
    rewrite map_app. cbn [map post_data].
    rewrite !string_append_assoc, <- app_assoc. split; reflexivity.
Qed.

(** X14: as long as nothing fails, the log file holds one line per tick, in
    the order of the ticks and each ended by a newline, and the bodies
    handed to the remote endpoint are these same lines in the same order:
    no reading is skipped, repeated or reordered. *)
Theorem log_has_one_line_per_tick (h : Host) (s : Session) :
  on_connect s = Returns tt -> tick_ok (first_tick s) ->
  Forall round_ok (rounds s) ->
  log_file (snd (run h s)) = lines_of (ticks s)
  /\ map post_data (posts (snd (run h s))) = map reading_line (ticks s).
Proof.
  intros Hconn Ht Hall.
  assert (Hblocked : fst (running s (connected h)) = Blocked).
  { unfold running, bind.
    destruct (tick_ok_returns (first_tick s) (connected h) Ht) as (Hout & _).
    unfold log_outcome in Hout.
    destruct (log_temperature (first_tick s) (connected h)) as [res w'].
    cbn [fst] in Hout. subst res.
    apply sampling_loop_blocked_iff. exact Hall. }
  assert (Hlog : log_file (snd (running s (connected h))) = lines_of (ticks s)
                 /\ map post_data (posts (snd (running s (connected h))))
                    = map reading_line (ticks s)).
  { unfold running, bind.
    destruct (tick_ok_returns (first_tick s) (connected h) Ht)
      as (Hout & x & Hx & Hl & Hp).
    unfold log_outcome, log_world in Hout, Hl, Hp.
    destruct (log_temperature (first_tick s) (connected h)) as [res w'].
    cbn [fst snd] in Hout, Hl, Hp. subst res.
    destruct (sampling_loop_steady (rounds s) Hall w') as [Hl' Hp'].
    rewrite Hl', Hp', Hl, Hp. unfold ticks. cbn [map lines_of].
    rewrite (reading_line_present (first_tick s) x Hx).
    unfold connected. cbn [log_file posts map app].
    split; [|reflexivity].
    cbn [append]. rewrite !string_append_assoc. reflexivity. }
  rewrite (main_connected h s Hconn).
  destruct (running s (connected h)) as [res w]. cbn [fst snd] in *.
  subst res. unfold shutdown. cbn [snd]. exact Hlog.
Qed.

Lemma tick_ok_good_tick : tick_ok good_tick.
Proof.
  split; [exists 122%float; reflexivity|].
  split; [split; reflexivity|left; reflexivity].
Qed.

Lemma tick_ok_offline_tick : tick_ok offline_tick.
Proof.
  split; [exists 122%float; reflexivity|].
  split; [split; reflexivity|right].
  exists offline. split; reflexivity.
Qed.

Lemma patchy_session_ok :
  on_connect patchy_session = Returns tt
  /\ tick_ok (first_tick patchy_session)
  /\ Forall round_ok (rounds patchy_session).
Proof.
  split; [reflexivity|]. split; [exact tick_ok_good_tick|].
  constructor; [split; [reflexivity|exact tick_ok_offline_tick]|].
  constructor; [split; [reflexivity|exact tick_ok_good_tick]|].
  constructor.
Qed.

Lemma log_has_one_line_per_tick_witness :
  map post_data (posts (snd (run linux patchy_session)))
  = map reading_line (ticks patchy_session).
Proof.
  exact (proj2 (log_has_one_line_per_tick linux patchy_session
                  (proj1 patchy_session_ok)
                  (proj1 (proj2 patchy_session_ok))
                  (proj2 (proj2 patchy_session_ok)))).
Defined.

(** ** The text of the log line *)

Lemma string_length_append (a b : string) :
  String.length (a ++ b) = (String.length a + String.length b)%nat.
Proof. induction a as [|c a IH]; cbn; [reflexivity|]. rewrite IH. reflexivity. Qed.

Lemma two_digits_width (n : Z) :
  0 <= n < 100 -> String.length (zfill 2 (decimal n)) = 2%nat.
Proof.
  intros Hn.
  assert (H : all_from (Z.to_nat 100) 0 (padded_width_checks 2) = true)
    by (vm_cast_no_check (eq_refl true)).
  apply Nat.eqb_eq. apply (all_from_spec _ _ _ H). lia.
Qed.

Lemma four_digits_width (n : Z) :
  0 <= n < 10000 -> String.length (zfill 4 (decimal n)) = 4%nat.
Proof.
  intros Hn.
  assert (H : all_from (Z.to_nat 10000) 0 (padded_width_checks 4) = true)
    by (vm_cast_no_check (eq_refl true)).
  apply Nat.eqb_eq. apply (all_from_spec _ _ _ H). lia.
Qed.

(** X15: the timestamp of a log line always has the same width: 14
    characters, [YYYYMMDD:HH:MM], for every date [datetime.now()] can
    return from the year 1000 on. *)
Theorem strftime_width (now : datetime) :
  datetime_ok now = true -> 1000 <= year now ->
  String.length (strftime now) = 14%nat.
Proof.
  intros Hok Hyear.
  unfold datetime_ok in Hok. rewrite !andb_true_iff in Hok.
  rewrite !Z.leb_le, !Z.ltb_lt in Hok.
  unfold strftime. rewrite !string_length_append.
  rewrite (four_digits_width (year now)) by lia.
  rewrite (two_digits_width (month now)) by lia.
  rewrite (two_digits_width (day now)) by lia.
  rewrite (two_digits_width (hour now)) by lia.
  rewrite (two_digits_width (minute now)) by lia.
  reflexivity.
Qed.

Lemma strftime_width_witness : String.length (strftime sample_now) = 14%nat.
Proof. apply strftime_width; [reflexivity|cbn; lia]. Defined.

Lemma round_half_even_bits_ok (num k : Z) :
  0 <= k -> round_half_even_bits num k = round_half_even_shift num k.
Proof.
  intros Hk. unfold round_half_even_bits, round_half_even_shift.
  rewrite (Z.shiftr_div_pow2 num k Hk), (Z.land_ones num k Hk).
  rewrite (Z.shiftl_1_l k). reflexivity.
Qed.

Lemma printed_tenths_checked (v : Z) :
  -32768 <= v <= 32767 -> printed_tenths_checks v = true.
Proof.
  intros Hv.
  assert (H : all_from (Z.to_nat 65536) (-32768) printed_tenths_checks = true)
    by (vm_cast_no_check (eq_refl true)).
  apply (all_from_spec _ _ _ H). lia.
Qed.

(** X16: the temperature in the log line is the exact conversion of the raw
    value, [v / 16 * 9 / 5 + 32], to the nearest tenth of a degree: for
    every 16-bit raw value the printed number differs from the exact one by
    at most 0.05, whatever the floating-point arithmetic of lines 34-35
    rounds on the way. *)
Theorem logged_temperature_accurate (v : Z) :
  -32768 <= v <= 32767 ->
  exists (negative : bool) (tenths : Z),
    format_1f (fahrenheit_of_raw v)
    = sign_text negative ++ decimal (tenths / 10) ++ "."
      ++ decimal (tenths mod 10)
    /\ 0 <= tenths
    /\ Z.abs (8 * (if negative then - tenths else tenths) - (9 * v + 2560))
       <= 4.
Proof.
  intros Hv. pose proof (printed_tenths_checked v Hv) as Hc.
  unfold printed_tenths_checks in Hc. unfold format_1f.
  destruct (Prim2SF (fahrenheit_of_raw v)) as [s|s| |s m e];
    try discriminate Hc.
  cbv zeta in Hc. rewrite !andb_true_iff in Hc.
  destruct Hc as (He & Hpos & Hnear).
  apply Z.ltb_lt in He.
  rewrite (round_half_even_bits_ok (10 * Z.pos m) (- e)) in Hpos, Hnear by lia.
  destruct (Z.leb_spec 0 e) as [Hge|_]; [lia|].
  exists s. eexists. split; [reflexivity|].
  split; [apply Z.leb_le; exact Hpos|apply Z.leb_le; exact Hnear].
Qed.

Lemma logged_temperature_accurate_witness :
  exists (negative : bool) (tenths : Z),
    format_1f (fahrenheit_of_raw 800)
    = sign_text negative ++ decimal (tenths / 10) ++ "."
      ++ decimal (tenths mod 10)
    /\ 0 <= tenths
    /\ Z.abs (8 * (if negative then - tenths else tenths) - (9 * 800 + 2560))
       <= 4.
Proof. apply logged_temperature_accurate. lia. Defined.

(** ** The hint after a refused connection *)

(** X17: the hint printed when the port cannot be opened follows the port
    only on Windows: the COM-port hint is printed exactly when [PORT] is
    [COM3], and every other platform gets the [dialout] hint, macOS with
    its [/dev/tty.usbserial-0001] included. *)
Theorem connect_tip_follows_port (h : Host) :
  (connect_tip h = COM_port_tip <-> PORT (sys_platform h) = "COM3")
  /\ (connect_tip h = dialout_tip <-> PORT (sys_platform h) <> "COM3")
  /\ (sys_platform h = "darwin" ->
      PORT (sys_platform h) = "/dev/tty.usbserial-0001"
      /\ connect_tip h = dialout_tip).
Proof.
  unfold connect_tip, PORT, COM_port_tip, dialout_tip.
  split; [|split].
  - destruct (prefix "win" (sys_platform h)).
    + split; reflexivity.
    + destruct (String.eqb (sys_platform h) "darwin"); split; discriminate.
  - destruct (prefix "win" (sys_platform h)).
    + split; [discriminate|]. intros Hne. exfalso. apply Hne. reflexivity.
    + destruct (String.eqb (sys_platform h) "darwin");
        split; intros _; first [reflexivity|discriminate].
  - intros ->. split; reflexivity.
Qed.

Lemma connect_tip_follows_port_witness :
  PORT (sys_platform macos) = "/dev/tty.usbserial-0001"
  /\ connect_tip macos = dialout_tip.
Proof. exact (proj2 (proj2 (connect_tip_follows_port macos)) eq_refl). Defined.

(** ** The log file and the submissions *)












(** ** The program on a standard output that can refuse a write *)

Lemma print_accepted (p : Printed) : Stdout.print (Returns tt) p = print p.
Proof. reflexivity. Qed.

Lemma print_refused (e : exn) (p : Printed) (w : World) :
  Stdout.print (Raises e) p w = (Raise e, w).
Proof. reflexivity. Qed.

(** With a standard output that accepts every write, the program is the one
    whose [print] always returns. *)
Lemma log_temperature_accepted (t : Tick) (o : TickPrints) :
  Stdout.accepts o -> Stdout.log_temperature t o = log_temperature t.
Proof.
  destruct o as [r1 r2 r3]. intros (H1 & H2 & H3). cbn in H1, H2, H3.
  subst. reflexivity.
Qed.

Lemma sampling_loop_accepted (rs : list RoundOut) :
  Forall Stdout.accepts_round rs ->
  Stdout.sampling_loop rs = sampling_loop (map round_of rs).
Proof.
  induction 1 as [|r rest [Hnext Hacc] _ IH].
  - reflexivity.
  - cbn [Stdout.sampling_loop sampling_loop map].
    rewrite IH, Hnext, (log_temperature_accepted _ _ Hacc). reflexivity.
Qed.

Lemma run_accepted (h : Host) (s : SessionOut) :
  Stdout.accepts_all s -> Stdout.run h s = run h (Stdout.session_of s).
Proof.
  destruct s as [conn pe t1 t2 pc pl ft fp rs ps].
  intros (H1 & H2 & H3 & H4 & H5 & H6 & H7 & H8). cbn in *. subst.
  unfold Stdout.run, run, Stdout.main, main, Stdout.running, running.
  cbn [on_connect_out on_print_error on_print_tip_1 on_print_tip_2
       on_print_connected on_print_logging first_tick_out first_prints
       rounds_out on_print_stopped Stdout.session_of on_connect first_tick
       rounds].
  rewrite (sampling_loop_accepted rs H7), (log_temperature_accepted ft fp H6).
  unfold connect_tip. destruct (prefix "win" (sys_platform h)); reflexivity.
Qed.

(** ** One call of [log_temperature] when a [print] can raise *)

(** After a present reading, [log_temperature] is the three sinks in a row:
    console, log file, remote endpoint. *)
Lemma log_temperature_present_out (t : Tick) (o : TickPrints) (w : World)
    (x : float) :
  tick_reading t = Return (Some x) ->
  Stdout.log_temperature t o w
  = (Stdout.print (on_print_line o) (Line (line_of t x)) ;;
     with_open_append (on_open t)
       (file_write (line_of t x ++ newline) (on_file_write t)) ;;
     try_except (requests_post APPS_SCRIPT_URL (line_of t x) 10 (on_post t))
       is_Exception
       (fun e => Stdout.print (on_print_post_failed o)
                   (Line ("Google Doc post failed: " ++ exn_message e))))%py
      (snd (read_temperature_f t w)).
Proof.
  intros Hx.
  destruct (read_temperature_f_frame t w) as (Hr & _).
  unfold Stdout.log_temperature.
  unfold bind at 1. unfold try_except at 1.
  destruct (read_temperature_f t w) as [r w1]. cbn [fst snd] in *.
  rewrite Hr, Hx. reflexivity.
Qed.

(** Without a reading, [log_temperature] raises and leaves the log file,
    the submissions and the connection alone. *)
Lemma log_temperature_absent_out (t : Tick) (o : TickPrints) (w : World) :
  (forall x, tick_reading t <> Return (Some x)) ->
  (exists e, Stdout.log_outcome t o w = Raise e)
  /\ log_file (Stdout.log_world t o w) = log_file w
  /\ posts (Stdout.log_world t o w) = posts w
  /\ ser_is_open (Stdout.log_world t o w) = ser_is_open w.
Proof.
  intros Hno.
  destruct (read_temperature_f_frame t w) as (Hr & _ & Hl & _ & Hp & Hs).
  pose proof (tick_reading_not_blocked t) as Hnb.
  assert (Heq : exists e w',
    Stdout.log_temperature t o w = (Raise e, w')
    /\ log_file w' = log_file w /\ posts w' = posts w
    /\ ser_is_open w' = ser_is_open w).
  { unfold Stdout.log_temperature.
    unfold bind at 1. unfold try_except at 1.
    destruct (read_temperature_f t w) as [r w1]. cbn [fst snd] in *.
    rewrite Hr.
    destruct (tick_reading t) as [[x|]|e|].
    - exfalso. exact (Hno x eq_refl).
    - eexists; eexists. split; [reflexivity|]. repeat split; assumption.
    - destruct (is_SerialException e).
      + destruct (on_print_serial_error o) as [[]|e'];
          eexists; eexists; (split; [reflexivity|]); cbn;
          repeat split; assumption.
      + eexists; eexists. split; [reflexivity|]. repeat split; assumption.
    - exfalso. exact (Hnb eq_refl). }
  destruct Heq as (e & w' & Heq & Hl' & Hp' & Hs').
  unfold Stdout.log_outcome, Stdout.log_world. rewrite Heq. cbn [fst snd].
  split; [exists e; reflexivity|]. repeat split; assumption.
Qed.

Lemma log_temperature_print_refused (t : Tick) (o : TickPrints) (w : World)
    (x : float) (e : exn) :
  tick_reading t = Return (Some x) -> on_print_line o = Raises e ->
  Stdout.log_temperature t o w = (Raise e, snd (read_temperature_f t w)).
Proof.
  intros Hx Hline. rewrite (log_temperature_present_out t o w x Hx), Hline.
  reflexivity.
Qed.

(** Once the line is printed, the sinks are the ones of the program whose
    [print] always returns, up to the report of a failed submission. *)
Lemma log_temperature_printed_out (t : Tick) (o : TickPrints) (w : World)
    (x : float) :
  tick_reading t = Return (Some x) -> on_print_line o = Returns tt ->
  let w1 := snd (read_temperature_f t w) in
  let w3 := mk_World (console w1 ++ [Line (line_of t x)])
              (log_file w1 ++ line_of t x ++ newline) (open_handles w1)
              (posts w1 ++ [mk_Post APPS_SCRIPT_URL (line_of t x) 10])
              (ser_is_open w1) (ser_sent w1) (slept w1) in
  Stdout.log_temperature t o w
  = match on_open t, on_file_write t with
    | Raises e, _ => (Raise e, printed (line_of t x) w1)
    | Returns _, Raises e => (Raise e, printed (line_of t x) w1)
    | Returns _, Returns _ =>
        match on_post t with
        | Returns _ => (Return tt, w3)
        | Raises e =>
            if is_Exception e
            then Stdout.print (on_print_post_failed o)
                   (Line ("Google Doc post failed: " ++ exn_message e)) w3
            else (Raise e, w3)
        end
    end.
Proof.
  intros Hx Hline. rewrite (log_temperature_present_out t o w x Hx), Hline.
  rewrite print_accepted.
  destruct (read_temperature_f t w) as [r [c lf oh ps so ss sl]].
  unfold with_open_append, file_write, requests_post.
  destruct (on_open t) as [[]|e2]; [|reflexivity].
  destruct (on_file_write t) as [[]|e3]; [|reflexivity].
  destruct (on_post t) as [[]|e4]; [reflexivity|].
  cbn -[Stdout.print append]. destruct (is_Exception e4); reflexivity.
Qed.

(** What one call does, case by case: it returns exactly when the tick is
    one it gets through, and raises otherwise; it appends one line and
    hands it to one POST or leaves both alone; it never touches the
    connection. *)
Lemma log_temperature_out (t : Tick) (o : TickPrints) (w : World) :
  ser_is_open (Stdout.log_world t o w) = ser_is_open w
  /\ ((Stdout.tick_ok t o /\ Stdout.log_outcome t o w = Return tt
       /\ exists x,
            tick_reading t = Return (Some x)
            /\ log_file (Stdout.log_world t o w)
               = log_file w ++ line_of t x ++ newline
            /\ posts (Stdout.log_world t o w)
               = (posts w ++ [mk_Post APPS_SCRIPT_URL (line_of t x) 10])%list)
      \/ (~ Stdout.tick_ok t o
          /\ exists e, Stdout.log_outcome t o w = Raise e)).
Proof.
  destruct (tick_reading t) as [[x|]|e|] eqn:Hx;
    try (destruct (log_temperature_absent_out t o w) as (He & _ & _ & Hs);
         [intros x'; rewrite Hx; discriminate|];
         split; [exact Hs|right]; split; [|exact He];
         intros ([x' Hx'] & _); rewrite Hx in Hx'; discriminate Hx').
  destruct (read_temperature_f_frame t w) as (_ & _ & Hl & _ & Hp & Hs).
  unfold Stdout.log_outcome, Stdout.log_world.
  destruct (on_print_line o) as [[]|e1] eqn:Hline.
  2:{ rewrite (log_temperature_print_refused t o w x e1 Hx Hline).
      cbn [fst snd]. split; [exact Hs|right]. split.
      - intros (_ & H & _). rewrite Hline in H. discriminate H.
      - exists e1. reflexivity. }
  rewrite (log_temperature_printed_out t o w x Hx Hline).
  destruct (on_open t) as [[]|e2] eqn:Hopen.
  2:{ cbn [fst snd printed ser_is_open]. split; [exact Hs|right]. split.
      - intros (_ & _ & [H _] & _). rewrite Hopen in H. discriminate H.
      - exists e2. reflexivity. }
  destruct (on_file_write t) as [[]|e3] eqn:Hwrite.
  2:{ cbn [fst snd printed ser_is_open]. split; [exact Hs|right]. split.
      - intros (_ & _ & [_ H] & _). rewrite Hwrite in H. discriminate H.
      - exists e3. reflexivity. }
  destruct (on_post t) as [[]|e4] eqn:Hpost.
  { cbn [fst snd log_file posts ser_is_open]. rewrite Hl, Hp.
    split; [exact Hs|left]. split; [|split; [reflexivity|]].
    - split; [exists x; exact Hx|]. split; [exact Hline|].
      split; [split; assumption|]. left. exact Hpost.
    - exists x. repeat split. }
  destruct (is_Exception e4) eqn:He4.
  2:{ cbn [fst snd log_file posts ser_is_open]. split; [exact Hs|right]. split.
      - intros (_ & _ & _ & [H | (e & H & He & _)]).
        + rewrite Hpost in H. discriminate H.
        + rewrite Hpost in H. injection H as <-. rewrite He4 in He.
          discriminate He.
      - exists e4. reflexivity. }
  destruct (on_print_post_failed o) as [[]|e5] eqn:Hreport.
  - rewrite print_accepted. unfold print, modify.
    cbn [fst snd log_file posts ser_is_open]. rewrite Hl, Hp.
    split; [exact Hs|left]. split; [|split; [reflexivity|]].
    + split; [exists x; exact Hx|]. split; [exact Hline|].
      split; [split; assumption|]. right. exists e4.
      split; [exact Hpost|]. split; [exact He4|exact Hreport].
    + exists x. repeat split.
  - rewrite print_refused.
    cbn [fst snd log_file posts ser_is_open]. split; [exact Hs|right]. split.
    + intros (_ & _ & _ & [H | (e & _ & _ & H)]).
      * rewrite Hpost in H. discriminate H.
      * rewrite Hreport in H. discriminate H.
    + exists e5. reflexivity.
Qed.

(** X5: [log_temperature] returns normally exactly when the device yields a
    reading, [print(line)] returns, the append succeeds and the submission
    returns or fails with an [Exception] that the handler manages to
    report; it has then appended one newline-terminated line and handed
    that same line to one POST.  In every other case it raises. *)
Theorem log_temperature_returns_iff (t : Tick) (o : TickPrints) (w : World) :
  (Stdout.log_outcome t o w = Return tt <-> Stdout.tick_ok t o)
  /\ (Stdout.log_outcome t o w = Return tt ->
      exists x,
        tick_reading t = Return (Some x)
        /\ log_file (Stdout.log_world t o w)
           = log_file w ++ line_of t x ++ newline
        /\ posts (Stdout.log_world t o w)
           = (posts w ++ [mk_Post APPS_SCRIPT_URL (line_of t x) 10])%list)
  /\ (~ Stdout.tick_ok t o -> exists e, Stdout.log_outcome t o w = Raise e).
Proof.
  destruct (log_temperature_out t o w)
    as (_ & [(Hok & Hout & Heff) | (Hno & e & Hout)]).
  - split; [split; intros _; assumption|].
    split; [intros _; exact Heff|]. intros Hno. exfalso. exact (Hno Hok).
  - split; [split|].
    + rewrite Hout. discriminate.
    + intros Hok. exfalso. exact (Hno Hok).
    + split; [rewrite Hout; discriminate|]. intros _. exists e. exact Hout.
Qed.

(** ** The loop and [main] when a [print] can raise *)

(** One turn of the loop. *)
Lemma sampling_loop_cons_out (r : RoundOut) (rest : list RoundOut) (w : World) :
  Stdout.sampling_loop (r :: rest) w
  = match on_print_next r with
    | Raises e => (Raise e, w)
    | Returns _ =>
        match on_sleep (round_of r) with
        | Raises e => (Raise e, before_tick (round_of r) w)
        | Returns _ =>
            match Stdout.log_temperature (tick (round_of r)) (prints_of r)
                    (before_tick (round_of r) w) with
            | (Return _, w') => Stdout.sampling_loop rest w'
            | (Raise e, w') => (Raise e, w')
            | (Blocked, w') => (Blocked, w')
            end
        end
    end.
Proof.
  cbn [Stdout.sampling_loop].
  destruct (on_print_next r) as [[]|e]; [|reflexivity].
  rewrite print_accepted.
  unfold bind at 1, print at 1, modify at 1.
  unfold bind at 1, sleep, bind at 1, modify, call, before_tick.
  destruct (on_sleep (round_of r)) as [[]|e]; cbn [ret raise console log_file
    open_handles posts ser_is_open ser_sent slept]; [|reflexivity].
  unfold bind. reflexivity.
Qed.

(** The loop goes on exactly as long as every turn goes through, and it
    never touches the connection. *)
Lemma sampling_loop_out (rs : list RoundOut) :
  forall w,
    (fst (Stdout.sampling_loop rs w) = Blocked <-> Forall Stdout.round_ok rs)
    /\ (forall u, fst (Stdout.sampling_loop rs w) <> Return u)
    /\ ser_is_open (snd (Stdout.sampling_loop rs w)) = ser_is_open w.
Proof.
  induction rs as [|r rest IH]; intros w.
  - split; [split; [constructor|reflexivity]|].
    split; [discriminate|reflexivity].
  - rewrite sampling_loop_cons_out.
    destruct (on_print_next r) as [[]|e] eqn:Hnext.
    2:{ split; [split; [discriminate|]|split; [discriminate|reflexivity]].
        intros Hall. inversion Hall as [|? ? (H & _) _].
        rewrite Hnext in H. discriminate H. }
    destruct (on_sleep (round_of r)) as [[]|e] eqn:Hsleep.
    2:{ split; [split; [discriminate|]|split; [discriminate|reflexivity]].
        intros Hall. inversion Hall as [|? ? (_ & H & _) _].
        rewrite Hsleep in H. discriminate H. }
    destruct (log_temperature_out (tick (round_of r)) (prints_of r)
                (before_tick (round_of r) w))
      as (Hs & [(Hok & Hout & _) | (Hno & e & Hout)]);
      unfold Stdout.log_outcome, Stdout.log_world in Hs, Hout;
      destruct (Stdout.log_temperature (tick (round_of r)) (prints_of r)
                  (before_tick (round_of r) w)) as [res w'];
      cbn [fst snd] in Hs, Hout; subst res.
    + destruct (IH w') as (Hiff & Hret & Hopen).
      split; [|split; [exact Hret|rewrite Hopen; exact Hs]].
      rewrite Hiff. split.
      * intros Hrest. constructor; [|exact Hrest].
        split; [exact Hnext|]. split; [exact Hsleep|exact Hok].
      * intros Hall. inversion Hall; assumption.
    + split; [split; [discriminate|]|split; [discriminate|exact Hs]].
      intros Hall. inversion Hall as [|? ? (_ & _ & H) _].
      exfalso. exact (Hno H).
Qed.

Lemma running_out (s : SessionOut) (w : World) :
  (fst (Stdout.running s w) = Blocked
   <-> Stdout.tick_ok (first_tick_out s) (first_prints s)
       /\ Forall Stdout.round_ok (rounds_out s))
  /\ (forall u, fst (Stdout.running s w) <> Return u)
  /\ ser_is_open (snd (Stdout.running s w)) = ser_is_open w.
Proof.
  unfold Stdout.running, bind.
  destruct (log_temperature_out (first_tick_out s) (first_prints s) w)
    as (Hs & [(Hok & Hout & _) | (Hno & e & Hout)]);
    unfold Stdout.log_outcome, Stdout.log_world in Hs, Hout;
    destruct (Stdout.log_temperature (first_tick_out s) (first_prints s) w)
      as [res w'];
    cbn [fst snd] in Hs, Hout; subst res.
  - destruct (sampling_loop_out (rounds_out s) w') as (Hiff & Hret & Hopen).
    split; [|split; [exact Hret|rewrite Hopen; exact Hs]].
    rewrite Hiff. split; [intros Hall; split; assumption|].
    intros [_ Hall]. exact Hall.
  - split; [split; [discriminate|]|split; [discriminate|exact Hs]].
    intros [H _]. exfalso. exact (Hno H).
Qed.

(** The state once [serial.Serial] has returned. *)
Lemma main_banner_out (h : Host) (s : SessionOut) :
  on_connect_out s = Returns tt ->
  Stdout.run h s
  = match on_print_connected s with
    | Raises e => (Raise e, mk_World [] "" 0 [] true [] [])
    | Returns _ =>
        match on_print_logging s with
        | Raises e =>
            (Raise e,
             mk_World
               [Line ("Connected to " ++ PORT (sys_platform h) ++ " at "
                      ++ decimal BAUD ++ " baud")]
               "" 0 [] true [] [])
        | Returns _ =>
            Stdout.shutdown (on_print_stopped s)
              (Stdout.running s (connected h))
        end
    end.
Proof.
  intros Hconn.
  unfold Stdout.run, Stdout.main, serial_Serial, Stdout.print, print.
  unfold try_except at 1. unfold bind, modify. rewrite Hconn.
  unfold call, ret, raise, initial_world. cbn beta iota.
  destruct (on_print_connected s) as [[]|e1]; [|reflexivity].
  cbn beta iota.
  destruct (on_print_logging s) as [[]|e2]; [|reflexivity].
  cbn beta iota. cbn [console log_file open_handles posts ser_is_open
                      ser_sent slept app].
  change (mk_World _ "" 0%nat [] true [] []) with (connected h).
  unfold try_finally, try_except, Stdout.shutdown.
  destruct (Stdout.running s (connected h)) as [[[]|e|] w]; try reflexivity.
  destruct e; try reflexivity.
  cbn [is_KeyboardInterrupt].
  destruct (on_print_stopped s) as [[]|e3]; reflexivity.
Qed.

(** A connection that cannot be opened: [main] raises, the connection is
    not open and nothing but the console has changed. *)
Lemma main_refused_out (h : Host) (s : SessionOut) (e : exn) :
  on_connect_out s = Raises e ->
  (exists e', fst (Stdout.run h s) = Raise e')
  /\ ser_is_open (snd (Stdout.run h s)) = false.
Proof.
  intros Hconn. unfold Stdout.run, Stdout.main, serial_Serial.
  unfold bind at 1. unfold try_except at 1. rewrite Hconn.
  unfold connect_tip.
  destruct (on_print_error s) as [[]|e1], (on_print_tip_1 s) as [[]|e2],
    (on_print_tip_2 s) as [[]|e3], (prefix "win" (sys_platform h)), e;
    (split; [eexists|]; reflexivity).
Qed.

(** X10: when [print] can raise, the connection is open at the end of a
    run exactly when the script is still running or one of the two prints
    between [serial.Serial] and the [try] of line 81 raised: in that case
    [main] has ended with the connection left open.  Once the [try] is
    entered the connection is closed whenever [main] ends, and it is never
    closed under a loop that still runs. *)
Theorem connection_open_iff_running (h : Host) (s : SessionOut) :
  (ser_is_open (snd (Stdout.run h s)) = true
   <-> fst (Stdout.run h s) = Blocked \/ Stdout.banner_fails s)
  /\ (Stdout.banner_fails s -> exists e, fst (Stdout.run h s) = Raise e).
Proof.
  unfold Stdout.banner_fails.
  destruct (on_connect_out s) as [[]|e] eqn:Hconn.
  2:{ destruct (main_refused_out h s e Hconn) as ([e' Hout] & Hclosed).
      rewrite Hclosed, Hout. split; [split|].
      - discriminate.
      - intros [H | [H _]]; discriminate H.
      - intros [H _]. discriminate H. }
  rewrite (main_banner_out h s Hconn).
  destruct (on_print_connected s) as [[]|e1].
  2:{ split; [split; [intros _; right|reflexivity]|intros _; exists e1;
              reflexivity].
      split; [reflexivity|]. left. exists e1. reflexivity. }
  destruct (on_print_logging s) as [[]|e2].
  2:{ split; [split; [intros _; right|reflexivity]|intros _; exists e2;
              reflexivity].
      split; [reflexivity|]. right. split; [reflexivity|].
      exists e2. reflexivity. }
  destruct (running_out s (connected h)) as (_ & _ & Hopen).
  assert (Hnone : ~ (Returns tt = Returns tt
                     /\ ((exists e, @Returns unit tt = Raises e)
                         \/ (@Returns unit tt = Returns tt
                             /\ exists e, @Returns unit tt = Raises e)))).
  { intros [_ [[e H] | [_ [e H]]]]; discriminate H. }
  split; [|intros H; exfalso; exact (Hnone H)].
  destruct (Stdout.running s (connected h)) as [[[]|e|] w];
    cbn [snd] in Hopen; unfold Stdout.shutdown.
  - cbn. split; [discriminate|]. intros [H | H]; [discriminate H|].
    exfalso. exact (Hnone H).
  - destruct e;
      try (cbn; split; [discriminate|]; intros [H | H]; [discriminate H|];
           exfalso; exact (Hnone H)).
    destruct (on_print_stopped s) as [[]|e3]; cbn;
      (split; [discriminate|]; intros [H | H]; [discriminate H|];
       exfalso; exact (Hnone H)).
  - cbn. split; [intros _; left; reflexivity|intros _; exact Hopen].
Qed.

Lemma connection_open_iff_running_witness :
  ser_is_open (snd (Stdout.run linux broken_banner_session)) = true.
Proof.
  apply (proj2 (proj1 (connection_open_iff_running linux
                         broken_banner_session))).
  right. split; [reflexivity|]. left. exists broken_pipe. reflexivity.
Defined.

(** X13: when [print] can raise, the script is still running at the end of
    the observed session exactly when the connection was opened and every
    step so far went through: the two banner prints returned, every tick
    produced a reading, printed it, appended it and got past the
    submission, and in every turn of the loop the countdown print and the
    sleep returned.  Anything else has ended it. *)
Theorem runs_on_iff_all_ok (h : Host) (s : SessionOut) :
  exit_status (fst (Stdout.run h s)) = None
  <-> on_connect_out s = Returns tt
      /\ on_print_connected s = Returns tt
      /\ on_print_logging s = Returns tt
      /\ Stdout.tick_ok (first_tick_out s) (first_prints s)
      /\ Forall Stdout.round_ok (rounds_out s).
Proof.
  assert (Hstatus : forall r : Result unit,
            exit_status r = None <-> r = Blocked).
  { intros [[]|e|]; cbn; [split; discriminate| |split; reflexivity].
    destruct e; split; discriminate. }
  rewrite Hstatus.
  destruct (on_connect_out s) as [[]|e] eqn:Hconn.
  2:{ destruct (main_refused_out h s e Hconn) as ([e' Hout] & _).
      rewrite Hout. split; [discriminate|]. intros [H _]. discriminate H. }
  rewrite (main_banner_out h s Hconn).
  destruct (on_print_connected s) as [[]|e1];
    [|split; [discriminate|]; intros (_ & H & _); discriminate H].
  destruct (on_print_logging s) as [[]|e2];
    [|split; [discriminate|]; intros (_ & _ & H & _); discriminate H].
  destruct (running_out s (connected h)) as (Hiff & Hret & _).
  destruct (Stdout.running s (connected h)) as [[[]|e|] w];
    cbn [fst] in Hiff, Hret; unfold Stdout.shutdown.
  - exfalso. exact (Hret tt eq_refl).
  - split.
    + destruct e; try discriminate.
      destruct (on_print_stopped s) as [[]|e3]; discriminate.
    + intros (_ & _ & _ & H). apply Hiff in H. discriminate H.
  - cbn [fst]. split; [|reflexivity]. intros _.
    split; [reflexivity|]. split; [reflexivity|]. split; [reflexivity|].
    apply Hiff. reflexivity.
Qed.

Lemma tick_ok_good_tick_out : Stdout.tick_ok good_tick writable.
Proof.
  split; [exists 122%float; reflexivity|]. split; [reflexivity|].
  split; [split; reflexivity|left; reflexivity].
Qed.

Lemma runs_on_iff_all_ok_witness :
  exit_status (fst (Stdout.run linux quiet_session)) = None.
Proof.
  apply (proj2 (runs_on_iff_all_ok linux quiet_session)).
  split; [reflexivity|]. split; [reflexivity|]. split; [reflexivity|].
  split; [exact tick_ok_good_tick_out|].
  constructor; [|constructor].
  split; [reflexivity|]. split; [reflexivity|exact tick_ok_good_tick_out].
Defined.

Lemma log_temperature_returns_iff_witness :
  Stdout.log_outcome good_tick writable initial_world = Return tt.
Proof.
  exact (proj2 (proj1 (log_temperature_returns_iff good_tick writable
                         initial_world)) tick_ok_good_tick_out).
Defined.

(** ** Errors that the tick does not contain *)

(** X12: the [except Exception] clause around the submission does not
    swallow an operator interrupt.  When [requests.post] is interrupted the
    line is already printed and in the log file, no failure message is
    printed and the interrupt leaves [log_temperature]; at the first tick
    [main] then prints [Stopped.] after the line, closes the connection and
    the script ends with status 0. *)
Theorem interrupt_during_submission (t : Tick) (o : TickPrints) (x : float) :
  tick_reading t = Return (Some x) -> on_print_line o = Returns tt ->
  append_succeeds t -> on_post t = Raises KeyboardInterrupt ->
  (forall w,
     Stdout.log_outcome t o w = Raise KeyboardInterrupt
     /\ log_file (Stdout.log_world t o w)
        = log_file w ++ line_of t x ++ newline
     /\ console (Stdout.log_world t o w)
        = (console w ++ [Line (line_of t x)])%list)
  /\ (forall h s,
        on_connect_out s = Returns tt ->
        on_print_connected s = Returns tt ->
        on_print_logging s = Returns tt ->
        first_tick_out s = t -> first_prints s = o ->
        on_print_stopped s = Returns tt ->
        exit_status (fst (Stdout.run h s)) = Some 0
        /\ ser_is_open (snd (Stdout.run h s)) = false
        /\ console (snd (Stdout.run h s))
           = (console (connected h)
              ++ [Line (line_of t x); Line (newline ++ "Stopped.")])%list
        /\ log_file (snd (Stdout.run h s)) = line_of t x ++ newline).
Proof.
  intros Hx Hline [Hopen Hwrite] Hpost.
  assert (Hlog : forall w,
     Stdout.log_temperature t o w
     = (Raise KeyboardInterrupt,
        mk_World (console w ++ [Line (line_of t x)])
          (log_file w ++ line_of t x ++ newline)
          (open_handles (snd (read_temperature_f t w)))
          (posts (snd (read_temperature_f t w))
           ++ [mk_Post APPS_SCRIPT_URL (line_of t x) 10])
          (ser_is_open (snd (read_temperature_f t w)))
          (ser_sent (snd (read_temperature_f t w)))
          (slept (snd (read_temperature_f t w))))).
  { intros w.
    destruct (read_temperature_f_frame t w) as (_ & Hc & Hl & _).
    rewrite (log_temperature_printed_out t o w x Hx Hline).
    rewrite Hopen, Hwrite, Hpost. cbn [is_Exception]. rewrite Hc, Hl.
    reflexivity. }
  split.
  - intros w. unfold Stdout.log_outcome, Stdout.log_world. rewrite Hlog.
    repeat split.
  - intros h s Hconn Hbanner Hlogging Hfirst Hprints Hstopped.
    rewrite (main_banner_out h s Hconn), Hbanner, Hlogging, Hstopped.
    unfold Stdout.running, bind. rewrite Hfirst, Hprints, Hlog.
    cbn [Stdout.shutdown fst snd exit_status closed printed ser_is_open
         console log_file].
    rewrite <- app_assoc. repeat split.
Qed.

Lemma interrupt_during_submission_witness :
  exit_status (fst (Stdout.run linux interrupted_post_session)) = Some 0.
Proof.
  exact (proj1 (proj2 (interrupt_during_submission interrupted_post_tick
                         writable 122 eq_refl eq_refl (conj eq_refl eq_refl)
                         eq_refl)
                 linux interrupted_post_session eq_refl eq_refl eq_refl
                 eq_refl eq_refl eq_refl)).
Defined.

(** X18: [print(line)] at line 55 is outside every [try].  When the
    standard output refuses the line (a closed pipe, or an encoding without
    the degree sign), the exception leaves [log_temperature] before either
    sink is reached: nothing is appended and nothing submitted.  At the
    first tick an [Exception] then ends the script with status 1, the
    connection closed and the log file empty. *)
Theorem refused_line_is_fatal (t : Tick) (o : TickPrints) (x : float)
    (e : exn) :
  tick_reading t = Return (Some x) -> on_print_line o = Raises e ->
  (forall w,
     Stdout.log_outcome t o w = Raise e
     /\ console (Stdout.log_world t o w) = console w
     /\ log_file (Stdout.log_world t o w) = log_file w
     /\ posts (Stdout.log_world t o w) = posts w)
  /\ (forall h s,
        is_Exception e = true ->
        on_connect_out s = Returns tt ->
        on_print_connected s = Returns tt ->
        on_print_logging s = Returns tt ->
        first_tick_out s = t -> first_prints s = o ->
        exit_status (fst (Stdout.run h s)) = Some 1
        /\ ser_is_open (snd (Stdout.run h s)) = false
        /\ log_file (snd (Stdout.run h s)) = ""
        /\ posts (snd (Stdout.run h s)) = []).
Proof.
  intros Hx Hline.
  assert (Hlog : forall w,
            Stdout.log_temperature t o w
            = (Raise e, snd (read_temperature_f t w)))
    by (intros w; exact (log_temperature_print_refused t o w x e Hx Hline)).
  split.
  - intros w.
    destruct (read_temperature_f_frame t w) as (_ & Hc & Hl & _ & Hp & _).
    unfold Stdout.log_outcome, Stdout.log_world. rewrite Hlog.
    repeat split; assumption.
  - intros h s He Hconn Hbanner Hlogging Hfirst Hprints.
    rewrite (main_banner_out h s Hconn), Hbanner, Hlogging.
    unfold Stdout.running, bind. rewrite Hfirst, Hprints, Hlog.
    destruct (read_temperature_f_frame t (connected h))
      as (_ & _ & Hl & _ & Hp & _).
    destruct e; try discriminate He;
      cbn [Stdout.shutdown fst snd exit_status closed ser_is_open log_file
           posts];
      rewrite Hl, Hp; repeat split.
Qed.

Lemma refused_line_is_fatal_witness :
  exit_status (fst (Stdout.run linux refused_line_session)) = Some 1.
Proof.
  exact (proj1 (proj2 (refused_line_is_fatal good_tick refusing 122
                         broken_pipe eq_refl eq_refl)
                 linux refused_line_session eq_refl eq_refl eq_refl eq_refl
                 eq_refl eq_refl)).
Defined.
